(** * nextdns_logs.py: the NextDNS log downloader

    A shallow embedding of [src/nextdns_logs.py]: the page fetcher
    ([get_logs]), the pagination driver ([download_all_logs]), the two
    exporters ([save_to_json], [save_to_csv]), the flattener
    ([_flatten_dict]) and the command line entry point ([main]).

    Python objects are a small tagged union ([Py.value]); a [dict] is an
    association list in insertion order.  A [str] is a Rocq string with one
    character per code point, so the texts of the model are the texts over
    the code points U+0000 to U+00FF; texts with other code points are not
    represented.

    Everything the program does to the outside world (printing, HTTP
    requests, sleeping, opening and writing files) is recorded in a trace of
    [event]s.  What the outside world answers is an input: the default
    headers of the [requests] library, the environment, what [argparse]
    makes of the command line, the outcome of each HTTP request in turn, and
    what the file system does with each file the program opens. *)

From Stdlib Require Import List String Ascii ZArith Bool Lia.
From Stdlib Require Import Sorted Permutation DecimalString.
From Stdlib Require QArith OrderedTypeEx.
Import ListNotations.

Local Open Scope list_scope.
Local Open Scope string_scope.
Set Warnings "-register-all".

(* ================================================================== *)
(** ** Python values and builtins *)
(* ================================================================== *)

Module Py.

(** What [json.loads] can return, and what the program builds from it.
    A float is identified by its [repr] (the shortest decimal text that
    reads back as the same float), which is all the program ever observes
    of one. *)
Inductive value : Type :=
| VNone : value
| VBool (b : bool)
| VInt (n : Z)
| VFloat (repr : string)
| VStr (s : string)
| VList (items : list value)
| VDict (entries : list (string * value)).

(** A [dict] with [str] keys, in insertion order. *)
Definition dict : Type := list (string * value).

(** Induction on a value that reaches the elements of a list and the values
    of a mapping. *)
Fixpoint value_nested_ind (P : value -> Prop)
         (HNone : P VNone)
         (HBool : forall b, P (VBool b))
         (HInt : forall n, P (VInt n))
         (HFloat : forall r, P (VFloat r))
         (HStr : forall s, P (VStr s))
         (HList : forall items, Forall P items -> P (VList items))
         (HDict : forall entries,
             Forall (fun kv => P (snd kv)) entries -> P (VDict entries))
         (v : value) {struct v} : P v :=
  let rec := value_nested_ind P HNone HBool HInt HFloat HStr HList HDict in
  match v with
  | VNone => HNone
  | VBool b => HBool b
  | VInt n => HInt n
  | VFloat r => HFloat r
  | VStr s => HStr s
  | VList items =>
      HList items
        ((fix all (l : list value) : Forall P l :=
            match l with
            | [] => Forall_nil P
            | x :: l' => Forall_cons x (rec x) (all l')
            end) items)
  | VDict entries =>
      HDict entries
        ((fix all (l : list (string * value))
            : Forall (fun kv => P (snd kv)) l :=
            match l with
            | [] => Forall_nil _
            | kv :: l' =>
                Forall_cons kv
                  (match kv return P (snd kv) with (_, x) => rec x end)
                  (all l')
            end) entries)
  end.

(** [bool(v)]: the truth value of an object. *)
Definition truthy (v : value) : bool :=
  match v with
  | VNone => false
  | VBool b => b
  | VInt n => negb (n =? 0)%Z
  | VFloat r => negb ((r =? "0.0") || (r =? "-0.0"))
  | VStr s => negb (s =? "")
  | VList [] => false
  | VList (_ :: _) => true
  | VDict [] => false
  | VDict (_ :: _) => true
  end.

(** [d.get(k)], as an option. *)
Fixpoint lookup (d : dict) (k : string) : option value :=
  match d with
  | [] => None
  | (k', v) :: d' => if k' =? k then Some v else lookup d' k
  end.

(** [d.get(k, default)]. *)
Definition get (d : dict) (k : string) (default : value) : value :=
  match lookup d k with
  | Some v => v
  | None => default
  end.

(** [d[k] = v]: an existing key keeps its position, a new one goes last. *)
Fixpoint setitem (d : dict) (k : string) (v : value) : dict :=
  match d with
  | [] => [(k, v)]
  | (k', v') :: d' =>
      if k' =? k then (k', v) :: d' else (k', v') :: setitem d' k v
  end.

(** [dict(items)]. *)
Definition of_items (items : list (string * value)) : dict :=
  fold_left (fun d kv => setitem d (fst kv) (snd kv)) items [].

(** [d.keys()]. *)
Definition keys (d : dict) : list string := map fst d.

(** [str(n)] for an [int]. *)
Definition str_of_int (n : Z) : string :=
  NilZero.string_of_int (Z.to_int n).

(** [len(xs)] as a Python [int]. *)
Definition len {A : Type} (xs : list A) : Z := Z.of_nat (List.length xs).

(** [xs[:n]]: a negative bound counts from the end. *)
Definition slice_to {A : Type} (xs : list A) (n : Z) : list A :=
  if (n <? 0)%Z then firstn (Z.to_nat (len xs + n)) xs
  else firstn (Z.to_nat n) xs.

Definition hex_digit (n : N) : ascii :=
  if (n <? 10)%N then ascii_of_N (48 + n) else ascii_of_N (87 + n).

(** [c.isprintable()] for a code point below 256: every one but the
    control characters (U+0000 to U+001F and U+007F to U+009F), the no-break
    space U+00A0 and the soft hyphen U+00AD. *)
Definition printable (n : N) : bool :=
  ((32 <=? n) && (n <? 127) || (161 <=? n) && negb (n =? 173))%N.

(** The escape of one character inside [repr] of a [str] quoted with
    [quote]: the quote and the backslash get a backslash, tab, line feed and
    carriage return their letter, any other character that is not printable
    its two hexadecimal digits; a printable character is copied. *)
Definition repr_char (quote c : ascii) : string :=
  let n := N_of_ascii c in
  if (Ascii.eqb c quote || Ascii.eqb c "\")%bool then String "\" (String c "")
  else if (n =? 9)%N then "\t"
  else if (n =? 10)%N then "\n"
  else if (n =? 13)%N then "\r"
  else if negb (printable n)
       then String "\" (String "x"
              (String (hex_digit (n / 16)) (String (hex_digit (n mod 16)) "")))
  else String c "".

Fixpoint has_char (c : ascii) (s : string) : bool :=
  match s with
  | EmptyString => false
  | String c' s' => Ascii.eqb c c' || has_char c s'
  end.

Fixpoint escape (quote : ascii) (s : string) : string :=
  match s with
  | EmptyString => EmptyString
  | String c s' => repr_char quote c ++ escape quote s'
  end.

(** The double quote character. *)
Definition double_quote : ascii := ascii_of_nat 34.

(** [repr(s)] for a [str]: single quotes, unless the text has a single
    quote and no double quote. *)
Definition repr_str (s : string) : string :=
  let quote : ascii :=
    if has_char "'" s && negb (has_char double_quote s) then double_quote
  else "'"%char in
  String quote (escape quote s ++ String quote "").

(** [repr(v)]. *)
Fixpoint repr (v : value) : string :=
  match v with
  | VNone => "None"
  | VBool true => "True"
  | VBool false => "False"
  | VInt n => str_of_int n
  | VFloat r => r
  | VStr s => repr_str s
  | VList items => "[" ++ String.concat ", " (map repr items) ++ "]"
  | VDict entries =>
      "{" ++ String.concat ", "
               (map (fun kv => repr_str (fst kv) ++ ": " ++ repr (snd kv))
                    entries) ++ "}"
  end.

(** [str(v)]: a [str] is itself, anything else is its [repr]. *)
Definition str (v : value) : string :=
  match v with
  | VStr s => s
  | _ => repr v
  end.

(** [sep.join(parts)]. *)
Definition join (sep : string) (parts : list string) : string :=
  String.concat sep parts.

(** Insertion into a list kept in increasing order. *)
Fixpoint insert_sorted (x : string) (xs : list string) : list string :=
  match xs with
  | [] => [x]
  | y :: ys => if (x <=? y)%string then x :: y :: ys
               else y :: insert_sorted x ys
  end.

(** [sorted(xs)] for a list of [str]: increasing order, texts being compared
    code point by code point. *)
Definition sorted (xs : list string) : list string :=
  fold_right insert_sorted [] xs.

(** [s.add(x)] on a [set] of [str], kept as a list without repeats. *)
Fixpoint set_add (x : string) (s : list string) : list string :=
  match s with
  | [] => [x]
  | y :: s' => if (y =? x)%string then y :: s' else y :: set_add x s'
  end.

(** [s.update(xs)]. *)
Definition set_update (s : list string) (xs : list string) : list string :=
  fold_left (fun acc x => set_add x acc) xs s.

End Py.

Import Py.

(* ================================================================== *)
(** ** Exceptions, results and the trace of effects *)
(* ================================================================== *)

(** The subclasses of [requests.exceptions.RequestException] that one page
    fetch can raise: [session.get] raises [Timeout] or [ConnectionError]
    (a failed DNS lookup is one), [raise_for_status] raises [HTTPError] and
    [response.json] raises [JSONDecodeError] on a body that is not JSON. *)
Inductive request_failure : Type :=
| Timeout
| ConnectionError
| HTTPError
| JSONDecodeError
| OtherRequestFailure.

(** The exceptions of the program.  All but [KeyboardInterrupt] are
    subclasses of [Exception]; [OSError] is what [open] and the writes to a
    file raise (no permission, no such directory, no space left). *)
Inductive exn : Type :=
| RequestException (kind : request_failure) (msg : string)
| AttributeError (msg : string)
| TypeError (msg : string)
| ValueError (msg : string)
| OSError (msg : string)
| OtherException (msg : string)
| KeyboardInterrupt.

(** [str(e)]. *)
Definition exn_str (e : exn) : string :=
  match e with
  | RequestException _ msg => msg
  | AttributeError msg => msg
  | TypeError msg => msg
  | ValueError msg => msg
  | OSError msg => msg
  | OtherException msg => msg
  | KeyboardInterrupt => ""
  end.

(** [isinstance(e, requests.exceptions.RequestException)]. *)
Definition is_RequestException (e : exn) : bool :=
  match e with
  | RequestException _ _ => true
  | _ => false
  end.

(** [isinstance(e, Exception)]. *)
Definition is_Exception (e : exn) : bool :=
  match e with
  | KeyboardInterrupt => false
  | _ => true
  end.

Inductive result (A : Type) : Type :=
| Ok (a : A)
| Raised (e : exn).
Arguments Ok {A} a.
Arguments Raised {A} e.

(** What the three statements of the [try] block of [get_logs] come to:
    the parsed body, or the exception one of them raised. *)
Inductive http_outcome : Type :=
| Returns (body : value)
| Raises (e : exn).

(** What the file system does with a file the program opens for writing:
    it takes the file whole; or [open] raises; or the file is opened and
    takes [written] writes, after which the next write, or else closing the
    file, raises (an [OSError], an interrupt; the texts of the model can all
    be encoded, so no write fails on account of the data). *)
Inductive file_outcome : Type :=
| Accepts
| OpenRaises (e : exn)
| WriteRaises (written : nat) (e : exn).

(** The effects of the program, in the order of the calls that have them.
    [Open]: [open(filename, 'w', ...)] created the file, or emptied it.
    [Dump]: [json.dump] wrote the whole text of [logs] to the file.
    [WriteRow]: the [csv] writer wrote one line with these cells to the file
    (the header is the line of the field names).  [Usage]: [argparse] wrote
    the usage and [message] to the standard error.  [PrintHelp]: [argparse]
    printed the help text. *)
Inductive event : Type :=
| Print (text end_ : string)
| Get (url : string) (headers params : dict) (timeout : Z)
| Sleep (seconds : QArith_base.Q)
| Open (filename : string)
| Dump (filename : string) (logs : list value)
| WriteRow (filename : string) (cells : list value)
| Usage (message : string)
| PrintHelp.

Definition trace : Type := list event.

(** A file open for writing: [None] takes every write; [Some (n, e)] takes
    [n] more writes and then raises [e], on the write after them or when it
    is closed. *)
Definition file : Type := option (nat * exn).

(** [open(filename, 'w', ...)]. *)
Definition open (filename : string) (fs : file_outcome) : trace * result file :=
  match fs with
  | Accepts => ([Open filename], Ok None)
  | OpenRaises e => ([], Raised e)
  | WriteRaises written e => ([Open filename], Ok (Some (written, e)))
  end.

(** One write to an open file, with the effect [written] when the file
    takes it. *)
Definition write (f : file) (written : event) : trace * result file :=
  match f with
  | None => ([written], Ok None)
  | Some (S n, e) => ([written], Ok (Some (n, e)))
  | Some (O, e) => ([], Raised e)
  end.

(** Closing the file at the end of the [with] block. *)
Definition close (f : file) : result unit :=
  match f with
  | None => Ok tt
  | Some (_, e) => Raised e
  end.

Definition nl : string := String (ascii_of_nat 10) "".

(** [print(text)]. *)
Definition print (text : string) : event := Print text nl.

(** The name of the type of an object, as error messages show it. *)
Definition type_name (v : value) : string :=
  match v with
  | VNone => "NoneType"
  | VBool _ => "bool"
  | VInt _ => "int"
  | VFloat _ => "float"
  | VStr _ => "str"
  | VList _ => "list"
  | VDict _ => "dict"
  end.

Definition no_attribute (v : value) (attr : string) : exn :=
  AttributeError ("'" ++ type_name v ++ "' object has no attribute '" ++ attr ++ "'").

(** The elements [for x in v] goes through: the items of a [list], the
    characters of a [str], the keys of a [dict]. *)
Definition iterate (v : value) : result (list value) :=
  match v with
  | VList items => Ok items
  | VDict entries => Ok (map VStr (keys entries))
  | VStr s => Ok (map (fun c => VStr (String c "")) (list_ascii_of_string s))
  | _ => Raised (TypeError ("'" ++ type_name v ++ "' object is not iterable"))
  end.

(* ================================================================== *)
(** ** The requests library *)
(* ================================================================== *)

(** What the headers of a fresh session depend on: the user agent names the
    version of the library ([python-requests/2.31.0], say) and the accepted
    encodings are those of the decoders installed with it. *)
Record requests_library : Type := {
  user_agent : string;
  accept_encoding : string
}.

(** [requests.utils.default_headers()], the headers of a fresh
    [requests.Session()]. *)
Definition default_headers (lib : requests_library) : dict :=
  [("User-Agent", VStr (user_agent lib));
   ("Accept-Encoding", VStr (accept_encoding lib));
   ("Accept", VStr "*/*");
   ("Connection", VStr "keep-alive")].

(* ================================================================== *)
(** ** class NextDNSLogDownloader *)
(* ================================================================== *)

Module NextDNSLogDownloader.

Definition BASE_URL : string := "https://api.nextdns.io".

(** The object: its two attributes and the headers of its session
    ([self.session.headers]), which every request of the session carries. *)
Record t : Type := {
  api_key : string;
  profile_id : string;
  session_headers : dict
}.

(** [__init__]: the session is a fresh [requests.Session()], with the
    default headers of the library, to which [X-Api-Key] is added. *)
Definition __init__ (lib : requests_library) (key profile : string) : t :=
  {| api_key := key;
     profile_id := profile;
     session_headers := setitem (default_headers lib) "X-Api-Key" (VStr key) |}.

(** The query parameters of one request. *)
Definition request_params (limit : Z) (cursor : value) : dict :=
  let params := [("limit", VInt (Z.min limit 100))] in
  if truthy cursor then setitem params "cursor" cursor else params.

Definition empty_response : value :=
  VDict [("data", VList []); ("meta", VDict [])].

(** [get_logs(limit, cursor)], given the outcome [net] of its request. *)
Definition get_logs (self : t) (limit : Z) (cursor : value)
           (net : http_outcome) : trace * result value :=
  let url := BASE_URL ++ "/profiles/" ++ profile_id self ++ "/logs" in
  let params := request_params limit cursor in
  let request := Get url (session_headers self) params 30 in
  match net with
  | Returns body => ([request], Ok body)
  | Raises e =>
      if is_RequestException e
      then ([request; print ("Error fetching logs: " ++ exn_str e)],
            Ok empty_response)
      else ([request], Raised e)
  end.

(** How one turn of the [while True] loop ends. *)
Inductive control : Type :=
| Break (all_logs : list value)
| Continue (all_logs : list value) (cursor : value)
| Raise (e : exn).

(** [max_logs and len(all_logs) >= max_logs]. *)
Definition cap_reached (max_logs : option Z) (all_logs : list value) : bool :=
  match max_logs with
  | None => false
  | Some m => truthy (VInt m) && (len all_logs >=? m)%Z
  end.

(** The body of the loop of [download_all_logs] from line 90 on, for the
    response [get_logs] returned. *)
Definition loop_body (max_logs : option Z) (all_logs : list value)
           (response : value) : trace * control :=
  match response with
  | VDict r =>
      let logs := get r "data" (VList []) in
      let meta := get r "meta" (VDict []) in
      if negb (truthy logs) then ([print "No more logs."], Break all_logs)
      else
        match iterate logs with
        | Raised e => ([], Raise e)
        | Ok items =>
            let all_logs := (all_logs ++ items)%list in
            let retrieved :=
              print ("Retrieved " ++ str_of_int (len items) ++ " logs (Total: "
                       ++ str_of_int (len all_logs) ++ ")") in
            if cap_reached max_logs all_logs then
              let m := match max_logs with Some m => m | None => 0%Z end in
              ([retrieved;
                print ("Reached maximum log limit of " ++ str_of_int m)],
               Break (slice_to all_logs m))
            else
              match meta with
              | VDict m =>
                  let cursor := get m "cursor" VNone in
                  if negb (truthy cursor)
                  then ([retrieved; print "All logs downloaded."],
                        Break all_logs)
                  else ([retrieved; Sleep (QArith_base.Qmake 1 2)],
                        Continue all_logs cursor)
              | _ => ([retrieved], Raise (no_attribute meta "get"))
              end
        end
  | _ => ([], Raise (no_attribute response "get"))
  end.

Definition prepend {A : Type} (tr : trace) (r : option (trace * A))
  : option (trace * A) :=
  match r with
  | Some (tr', a) => Some ((tr ++ tr')%list, a)
  | None => None
  end.

(** The [while True] loop, entered with [all_logs], [cursor] and [page];
    [net] lists the outcomes of the requests to come.  [None]: the loop
    asks for more requests than [net] describes. *)
Fixpoint download_loop (self : t) (max_logs : option Z)
         (net : list http_outcome) (all_logs : list value) (cursor : value)
         (page : Z) : option (trace * result (list value)) :=
  match net with
  | [] => None
  | outcome :: net' =>
      let fetching := Print ("Fetching page " ++ str_of_int page ++ "...") " " in
      let (tr1, r) := get_logs self 100 cursor outcome in
      match r with
      | Raised e => Some (fetching :: tr1, Raised e)
      | Ok response =>
          let (tr2, c) := loop_body max_logs all_logs response in
          match c with
          | Break logs => Some ((fetching :: tr1 ++ tr2)%list, Ok logs)
          | Raise e => Some ((fetching :: tr1 ++ tr2)%list, Raised e)
          | Continue logs cursor' =>
              prepend (fetching :: tr1 ++ tr2)%list
                      (download_loop self max_logs net' logs cursor' (page + 1))
          end
      end
  end.

Definition download_all_logs (self : t) (max_logs : option Z)
           (net : list http_outcome) : option (trace * result (list value)) :=
  prepend [print "Starting log download..."]
          (download_loop self max_logs net [] VNone 1).

(** [save_to_json], given what the file system does with the file.
    [json.dump] writes the text piece by piece: a file that does not take
    every write and the closing is left with a part of the text, and the
    exception leaves the function. *)
Definition save_to_json (logs : list value) (filename : string)
           (fs : file_outcome) : trace * result unit :=
  match open filename fs with
  | (tr, Raised e) => (tr, Raised e)
  | (tr, Ok f) =>
      match f with
      | Some (_, e) => (tr, Raised e)
      | None =>
          ((tr ++ [Dump filename logs;
                   print ("Saved " ++ str_of_int (len logs) ++ " logs to "
                            ++ filename)])%list,
           Ok tt)
      end
  end.

(** The recursion of [_flatten_dict], on the object [d] (a [dict] at every
    call the program makes). *)
Fixpoint flatten_object (d : value) (parent_key sep : string) {struct d}
  : dict :=
  match d with
  | VDict entries =>
      of_items
        (flat_map
           (fun kv =>
              match kv with
              | (k, v) =>
                  let new_key :=
                    if truthy (VStr parent_key) then parent_key ++ sep ++ k
                    else k in
                  match v with
                  | VDict _ => flatten_object v new_key sep
                  | VList items =>
                      [(new_key,
                        VStr (if truthy v then join ", " (map str items)
                              else ""))]
                  | _ => [(new_key, v)]
                  end
              end)
           entries)
  | _ => []
  end.

Definition _flatten_dict (d : dict) (parent_key sep : string) : dict :=
  flatten_object (VDict d) parent_key sep.

(** [self._flatten_dict(log)] on an object: [log.items()] needs a [dict]. *)
Definition flatten_log (log : value) : result dict :=
  match log with
  | VDict d => Ok (_flatten_dict d "" "_")
  | _ => Raised (no_attribute log "items")
  end.

(** The first loop of [save_to_csv]: the set of all flattened keys. *)
Fixpoint collect_fieldnames (fieldnames : list string) (logs : list value)
  : result (list string) :=
  match logs with
  | [] => Ok fieldnames
  | log :: rest =>
      match flatten_log log with
      | Raised e => Raised e
      | Ok flattened =>
          collect_fieldnames (set_update fieldnames (keys flattened)) rest
      end
  end.

(** [csv.DictWriter._dict_to_list] with the defaults [restval=''] and
    [extrasaction='raise']. *)
Definition dict_to_list (fieldnames : list string) (rowdict : dict)
  : result (list value) :=
  let wrong_fields :=
    filter (fun k => negb (existsb (String.eqb k) fieldnames)) (keys rowdict) in
  match wrong_fields with
  | [] => Ok (map (fun key => get rowdict key (VStr "")) fieldnames)
  | _ => Raised (ValueError ("dict contains fields not in fieldnames: "
                               ++ join ", " (map repr_str wrong_fields)))
  end.

(** [writer.writerow(rowdict)] on the open file [f]. *)
Definition writerow (f : file) (filename : string) (fieldnames : list string)
           (rowdict : dict) : trace * result file :=
  match dict_to_list fieldnames rowdict with
  | Raised e => ([], Raised e)
  | Ok row => write f (WriteRow filename row)
  end.

(** [writer.writeheader()]: the row of the field names themselves. *)
Definition writeheader (f : file) (filename : string) (fieldnames : list string)
  : trace * result file :=
  writerow f filename fieldnames (map (fun key => (key, VStr key)) fieldnames).

(** The second loop of [save_to_csv], on the open file [f]. *)
Fixpoint write_rows (f : file) (filename : string) (fieldnames : list string)
         (logs : list value) : trace * result file :=
  match logs with
  | [] => ([], Ok f)
  | log :: rest =>
      match flatten_log log with
      | Raised e => ([], Raised e)
      | Ok flattened =>
          match writerow f filename fieldnames flattened with
          | (tr, Raised e) => (tr, Raised e)
          | (tr, Ok f') =>
              let (tr', r) := write_rows f' filename fieldnames rest in
              ((tr ++ tr')%list, r)
          end
      end
  end.

(** [save_to_csv], given what the file system does with the file.  A line
    is the list of its cells: the quoting of the [csv] module is not
    modelled.  An exception raised inside the [with] block leaves the file
    with the lines written until then. *)
Definition save_to_csv (logs : list value) (filename : string)
           (fs : file_outcome) : trace * result unit :=
  if negb (truthy (VList logs)) then ([print "No logs to save to CSV"], Ok tt)
  else
    match collect_fieldnames [] logs with
    | Raised e => ([], Raised e)
    | Ok fieldnames =>
        let fieldnames := sorted fieldnames in
        match open filename fs with
        | (tr, Raised e) => (tr, Raised e)
        | (tr, Ok f) =>
            match writeheader f filename fieldnames with
            | (tr1, Raised e) => ((tr ++ tr1)%list, Raised e)
            | (tr1, Ok f1) =>
                match write_rows f1 filename fieldnames logs with
                | (tr2, Raised e) => ((tr ++ tr1 ++ tr2)%list, Raised e)
                | (tr2, Ok f2) =>
                    match close f2 with
                    | Raised e => ((tr ++ tr1 ++ tr2)%list, Raised e)
                    | Ok _ =>
                        ((tr ++ tr1 ++ tr2
                             ++ [print ("Saved " ++ str_of_int (len logs)
                                          ++ " logs to " ++ filename)])%list,
                         Ok tt)
                    end
                end
            end
        end
    end.

End NextDNSLogDownloader.

(* ================================================================== *)
(** ** main *)
(* ================================================================== *)

Import NextDNSLogDownloader.

(** The options of a command line that [argparse] accepts, as it reads
    them: each option as given, if given. *)
Record command_line : Type := {
  opt_api_key : option string;
  opt_profile : option string;
  opt_output : option string;
  opt_max_logs : option Z;
  opt_json_only : bool;
  opt_csv_only : bool
}.

(** The namespace [parser.parse_args()] returns. *)
Record namespace : Type := {
  args_api_key : option string;
  args_profile : option string;
  args_output : string;
  args_max_logs : option Z;
  args_json_only : bool;
  args_csv_only : bool
}.

(** [os.environ.get(name)]. *)
Fixpoint environ_get (environ : list (string * string)) (name : string)
  : option string :=
  match environ with
  | [] => None
  | (n, v) :: rest => if n =? name then Some v else environ_get rest name
  end.

Definition or_default {A : Type} (given : option A) (default : A) : A :=
  match given with
  | Some a => a
  | None => default
  end.

Definition or_else {A : Type} (given default : option A) : option A :=
  match given with
  | Some a => Some a
  | None => default
  end.

(** The options with their defaults: the two credentials default to the
    environment variables. *)
Definition namespace_of (environ : list (string * string)) (cl : command_line)
  : namespace :=
  {| args_api_key := or_else (opt_api_key cl) (environ_get environ "NEXTDNS_API_KEY");
     args_profile := or_else (opt_profile cl) (environ_get environ "NEXTDNS_PROFILE_ID");
     args_output := or_default (opt_output cl) "nextdns_logs";
     args_max_logs := opt_max_logs cl;
     args_json_only := opt_json_only cl;
     args_csv_only := opt_csv_only cl |}.

(** What [argparse] makes of the arguments of the process: the options of a
    command line it accepts; or a request for help ([-h], [--help]); or a
    command line it rejects, with its complaint (an option it does not know,
    an option without its value, a [--max-logs] that is no [int]). *)
Inductive arguments : Type :=
| Options (cl : command_line)
| HelpOption
| Invalid (message : string).

(** How [parser.parse_args()] ends: it returns the namespace, or it ends
    the process. *)
Inductive parsed : Type :=
| Namespace (args : namespace)
| Exit (run : trace * Z).

(** The truth value of an option that is [None] or a [str]. *)
Definition given (a : option string) : bool :=
  match a with
  | Some s => truthy (VStr s)
  | None => truthy VNone
  end.

(** [parser.error(message)]: [argparse] prints the usage and the message on
    the standard error and ends the process with status 2. *)
Definition parser_error (message : string) : trace * Z :=
  ([Usage message], 2%Z).

(** [parser.parse_args()]: on a request for help [argparse] prints the help
    text and ends the process with status 0; a command line it rejects is a
    [parser.error]. *)
Definition parse_args (environ : list (string * string)) (argv : arguments)
  : parsed :=
  match argv with
  | Options cl => Namespace (namespace_of environ cl)
  | HelpOption => Exit ([PrintHelp], 0%Z)
  | Invalid message => Exit (parser_error message)
  end.

(** The [except] clauses of [main]. *)
Definition handle (tr : trace) (e : exn) : trace * Z :=
  match e with
  | KeyboardInterrupt =>
      ((tr ++ [print (nl ++ nl ++ "Download interrupted by user.")])%list, 1%Z)
  | _ => ((tr ++ [print (nl ++ "Error: " ++ exn_str e)])%list, 1%Z)
  end.

(** [main()]: the trace of the run and the exit status of the process;
    [None] when [net] is too short for the run.  [lib] is the installed
    [requests] library, [environ] the environment, [argv] what [argparse]
    makes of the command line, [net] the outcomes of the successive
    requests and [disk] what the file system does with the file of each
    name. *)
Definition main (lib : requests_library) (environ : list (string * string))
           (argv : arguments) (net : list http_outcome)
           (disk : string -> file_outcome) : option (trace * Z) :=
  match parse_args environ argv with
  | Exit out => Some out
  | Namespace args =>
      if negb (given (args_api_key args)) then
        Some (parser_error
                "--api-key is required (or set NEXTDNS_API_KEY environment variable)")
      else if negb (given (args_profile args)) then
        Some (parser_error
                "--profile is required (or set NEXTDNS_PROFILE_ID environment variable)")
      else
        let downloader :=
          __init__ lib (or_default (args_api_key args) "")
                   (or_default (args_profile args) "") in
        match download_all_logs downloader (args_max_logs args) net with
        | None => None
        | Some (tr, Raised e) => Some (handle tr e)
        | Some (tr, Ok logs) =>
            if negb (truthy (VList logs)) then
              Some ((tr ++ [print "No logs downloaded."])%list, 0%Z)
            else
              let (tr_json, r_json) :=
                if negb (args_csv_only args)
                then let json_filename := args_output args ++ ".json" in
                     save_to_json logs json_filename (disk json_filename)
                else ([], Ok tt) in
              match r_json with
              | Raised e => Some (handle (tr ++ tr_json)%list e)
              | Ok _ =>
                  let (tr_csv, r_csv) :=
                    if negb (args_json_only args)
                    then let csv_filename := args_output args ++ ".csv" in
                         save_to_csv logs csv_filename (disk csv_filename)
                    else ([], Ok tt) in
                  match r_csv with
                  | Raised e => Some (handle (tr ++ tr_json ++ tr_csv)%list e)
                  | Ok _ =>
                      Some ((tr ++ tr_json ++ tr_csv
                                ++ [print (nl ++ "Download complete! Total logs: "
                                              ++ str_of_int (len logs))])%list,
                            0%Z)
                  end
              end
        end
  end.

(* ================================================================== *)
(** ** Observations on a trace *)
(* ================================================================== *)

Definition is_sleep (e : event) : bool :=
  match e with Sleep _ => true | _ => false end.

Definition is_get (e : event) : bool :=
  match e with Get _ _ _ _ => true | _ => false end.


(** How often the pacing delay was invoked. *)
Definition pacing_delays (tr : trace) : nat := List.length (filter is_sleep tr).

(** How many requests were sent. *)
Definition fetches (tr : trace) : nat := List.length (filter is_get tr).

(** The requests and the pacing delays of a trace, in order: [false] for a
    request, [true] for a delay. *)
Definition schedule (tr : trace) : list bool :=
  map is_sleep (filter (fun e => is_get e || is_sleep e) tr).

(** Requests with one delay between each two of them: a request, then
    [delays] times a delay and a request. *)
Fixpoint alternating (delays : nat) : list bool :=
  match delays with
  | O => [false]
  | S n => false :: true :: alternating n
  end.

(** The names of the files written, in order: every file the run opened for
    writing, which creates it or empties it. *)
Definition files_written (tr : trace) : list string :=
  flat_map (fun e => match e with
                     | Open f => [f]
                     | _ => []
                     end) tr.

(** The lines written to CSV files, in order. *)
Definition lines_written (tr : trace) : list (list value) :=
  flat_map (fun e => match e with
                     | WriteRow _ cells => [cells]
                     | _ => []
                     end) tr.

(** The lists of records dumped as JSON, each with its file. *)
Definition dumps (tr : trace) : list (string * list value) :=
  flat_map (fun e => match e with
                     | Dump f logs => [(f, logs)]
                     | _ => []
                     end) tr.

(** What a run returned, when it returned. *)
Definition returned {A : Type} (run : option (trace * result A)) : option A :=
  match run with
  | Some (_, Ok a) => Some a
  | _ => None
  end.

Definition trace_of {A : Type} (run : option (trace * A)) : trace :=
  match run with
  | Some (tr, _) => tr
  | None => []
  end.

(** The pacing delay of the driver: half a second. *)
Definition half_second (e : event) : Prop :=
  is_sleep e = true -> e = Sleep (QArith_base.Qmake 1 2).

(** Strictly increasing order on [str], texts being compared code point by
    code point. *)
Definition str_lt (a b : string) : Prop := (a <? b)%string = true.

(** Neither a [dict] nor a [list]. *)
Definition is_scalar (v : value) : bool :=
  match v with
  | VDict _ | VList _ => false
  | _ => true
  end.

(** The flattener as the specification words it: the keys of a nested
    mapping are joined to the key of the mapping with the separator, at every
    depth; a list becomes the text of its elements joined with a comma and a
    space; a scalar is kept.  The parent key is absent at the top level. *)
Fixpoint flatten_spec (d : value) (parent_key : option string) (sep : string)
         {struct d} : dict :=
  match d with
  | VDict entries =>
      of_items
        (flat_map
           (fun kv =>
              match kv with
              | (k, v) =>
                  let new_key :=
                    match parent_key with
                    | Some parent => parent ++ sep ++ k
                    | None => k
                    end in
                  match v with
                  | VDict _ => flatten_spec v (Some new_key) sep
                  | VList items => [(new_key, VStr (join ", " (map str items)))]
                  | _ => [(new_key, v)]
                  end
              end)
           entries)
  | _ => []
  end.

(** Whether a turn of the loop goes on to another one. *)
Definition continues (c : control) : bool :=
  match c with Continue _ _ => true | _ => false end.

(** ** A simulated API *)

(** A well-formed response: the records of a page and its cursor, if any. *)
Definition page (records : list value) (cursor : option string) : value :=
  VDict [("data", VList records);
         ("meta", VDict match cursor with
                        | Some c => [("cursor", VStr c)]
                        | None => []
                        end)].

(** A simulated API: pages that each carry a cursor, then a last page
    without one (empty when the API ends on an empty page).  [simulated]
    lists the outcomes of the successive requests. *)
Definition simulated (pages : list (list value * string)) (last : list value)
  : list http_outcome :=
  (map (fun p => Returns (page (fst p) (Some (snd p)))) pages
     ++ [Returns (page last None)])%list.

(** Every page before the last has records and a non-empty cursor. *)
Definition well_formed (pages : list (list value * string)) : Prop :=
  Forall (fun p => fst p <> [] /\ snd p <> "") pages.

(** All the records of the simulated API, in delivery order. *)
Definition records (pages : list (list value * string)) (last : list value)
  : list value :=
  (List.concat (map fst pages) ++ last)%list.

Definition exit_status (run : option (trace * Z)) : option Z :=
  option_map snd run.

(** The sample records and runs of the examples below. *)
Definition rec_ (n : Z) : value := VDict [("id", VInt n)].

Definition sample_library : requests_library :=
  {| user_agent := "python-requests/2.31.0";
     accept_encoding := "gzip, deflate" |}.

Definition sample_downloader : NextDNSLogDownloader.t :=
  __init__ sample_library "key" "abc123".

(** A file system that takes every file. *)
Definition accepting : string -> file_outcome := fun _ => Accepts.

(** A file system that is full after the header of [nextdns_logs.csv]. *)
Definition no_space_left : exn := OSError "[Errno 28] No space left on device".

Definition full_after_header : string -> file_outcome :=
  fun filename =>
    if filename =? "nextdns_logs.csv" then WriteRaises 1 no_space_left
    else Accepts.

(** Sample command lines and environments. *)
Definition both_credentials : command_line :=
  {| opt_api_key := Some "key"; opt_profile := Some "abc123";
     opt_output := None; opt_max_logs := None;
     opt_json_only := false; opt_csv_only := false |}.


Definition key_in_environ : list (string * string) :=
  [("NEXTDNS_API_KEY", "key")].

Definition profile_and_prefix : command_line :=
  {| opt_api_key := None; opt_profile := Some "abc123";
     opt_output := Some "logs"; opt_max_logs := None;
     opt_json_only := false; opt_csv_only := false |}.

Definition both_in_environ : list (string * string) :=
  [("NEXTDNS_API_KEY", "from-env"); ("NEXTDNS_PROFILE_ID", "abc123")].

Definition key_by_flag : command_line :=
  {| opt_api_key := Some "from-flag"; opt_profile := None;
     opt_output := None; opt_max_logs := None;
     opt_json_only := false; opt_csv_only := false |}.

(** Two sample records, the second with a nested mapping. *)
Definition nested_record : dict := [("a", VDict [("b", VInt 2)])].

Definition flat_record : dict := [("id", VInt 1)].

Definition three_pages_then_empty : list http_outcome :=
  [Returns (page [rec_ 1; rec_ 2] (Some "c1"));
   Returns (page [rec_ 3; rec_ 4] (Some "c2"));
   Returns (page [rec_ 5; rec_ 6] (Some "c3"));
   Returns (page [] None)].

Definition both_only_flags : command_line :=
  {| opt_api_key := Some "key"; opt_profile := Some "abc123";
     opt_output := None; opt_max_logs := None;
     opt_json_only := true; opt_csv_only := true |}.

Definition no_api_key : command_line :=
  {| opt_api_key := None; opt_profile := Some "abc123";
     opt_output := None; opt_max_logs := None;
     opt_json_only := false; opt_csv_only := false |}.


(** The answers of an API that returns the given pages, each with its
    records and its cursor, if any. *)
Definition pages_of (pages : list (list value * option string))
  : list http_outcome :=
  map (fun p => Returns (page (fst p) (snd p))) pages.

(** The request [get_logs] sends for the driver: the profile's log URL, the
    session's headers, a page size of 100 and the cursor, within 30 seconds. *)
Definition page_request (self : NextDNSLogDownloader.t) (cursor : value) : event :=
  Get (BASE_URL ++ "/profiles/" ++ profile_id self ++ "/logs")
      (session_headers self) (request_params 100 cursor) 30.

(** What every request of the driver looks like: the log URL of the
    profile, the headers of the session, a timeout of 30 seconds, a page
    size of 100 and no parameter but the page size and the cursor. *)
Definition page_request_shape (self : NextDNSLogDownloader.t) (e : event) : Prop :=
  is_get e = true ->
  exists params,
    e = Get (BASE_URL ++ "/profiles/" ++ profile_id self ++ "/logs")
            (session_headers self) params 30
    /\ lookup params "limit" = Some (VInt 100)
    /\ (forall k, In k (keys params) -> k = "limit" \/ k = "cursor").

(** The files a run that exports writes, by the two flags. *)
Definition exported_files (args : namespace) : list string :=
  let json := (args_output args ++ ".json")%string in
  let csv := (args_output args ++ ".csv")%string in
  ((if args_csv_only args then [] else [json])
     ++ (if args_json_only args then [] else [csv]))%list.

(** The downloader [main] builds from the arguments. *)
Definition downloader_of (lib : requests_library) (args : namespace)
  : NextDNSLogDownloader.t :=
  __init__ lib (or_default (args_api_key args) "")
           (or_default (args_profile args) "").


(** The flattened record as the specification words it. *)
Definition flattened (d : dict) : dict := flatten_spec (VDict d) None "_".

(** The lines of a table: the header, then for each record the cells of
    its flattened form under the names of the header, the empty text where
    it has none. *)
Definition table (flatten : dict -> dict) (header : list string)
           (ds : list dict) : list (list value) :=
  map VStr header
    :: map (fun d => map (fun key => get (flatten d) key (VStr "")) header) ds.

(** The lines of the CSV file of the specification. *)
Definition csv_lines (header : list string) (ds : list dict) : list (list value) :=
  table flattened header ds.

(** A record that flattens to the one key [b] where the specification
    joins the keys to [_b], and the same next to a top-level [b]. *)
Definition under_empty_key : dict := [("", VDict [("b", VInt 1)])].

Definition under_empty_key_and_b : dict :=
  [("", VDict [("b", VInt 1)]); ("b", VInt 2)].

(* ================================================================== *)
(** ** The page fetcher *)
(* ================================================================== *)

Section Fetcher.

Variable self : NextDNSLogDownloader.t.

Lemma loop_body_empty_data :
  forall max_logs all_logs meta,
    loop_body max_logs all_logs (VDict [("data", VList []); ("meta", meta)])
    = ([print "No more logs."], Break all_logs).
Proof. reflexivity. Qed.

(** C5: a page fetch that fails with any [RequestException] (timeout,
    connection or DNS error, error status, body that is not JSON) does not
    raise: [get_logs] prints the failure and returns the response with no
    record and no cursor, the one a legitimate empty last page is; the
    driver ends on it as it ends on that page. *)
Theorem get_logs_transport_failure :
  forall (limit : Z) (cursor : value) (kind : request_failure) (msg : string),
    get_logs self limit cursor (Raises (RequestException kind msg))
    = ([Get (BASE_URL ++ "/profiles/" ++ profile_id self ++ "/logs")
            (session_headers self) (request_params limit cursor) 30;
        print ("Error fetching logs: " ++ msg)],
       Ok (page [] None))
    /\ (forall max_logs all_logs,
           loop_body max_logs all_logs (page [] None)
           = ([print "No more logs."], Break all_logs))
    /\ (forall max_logs rest all_logs pg,
           returned (download_loop self max_logs
                       (Raises (RequestException kind msg) :: rest)
                       all_logs cursor pg)
           = Some all_logs
           /\ returned (download_loop self max_logs
                          (Returns (page [] None) :: rest) all_logs cursor pg)
              = Some all_logs).
Proof.
  intros limit cursor kind msg. split; [reflexivity|].
  split; [reflexivity|]. intros max_logs rest all_logs pg.
  split; reflexivity.
Qed.

(** C10, at the fetcher: a cursor that is the empty string is left out of
    the request, as an absent one is; at the driver: a page whose cursor is
    the empty string ends the loop as a page without cursor does. *)
Theorem empty_cursor_is_absent :
  (forall limit,
      request_params limit (VStr "") = request_params limit VNone
      /\ lookup (request_params limit (VStr "")) "cursor" = None)
  /\ (forall limit net,
         get_logs self limit (VStr "") net = get_logs self limit VNone net)
  /\ (forall max_logs all_logs recs,
         loop_body max_logs all_logs (page recs (Some ""))
         = loop_body max_logs all_logs (page recs None))
  /\ (forall r rs rest all_logs cursor pg,
         download_loop self None (Returns (page (r :: rs) (Some "")) :: rest)
                       all_logs cursor pg
         = Some ([Print ("Fetching page " ++ str_of_int pg ++ "...") " ";
                  Get (BASE_URL ++ "/profiles/" ++ profile_id self ++ "/logs")
                      (session_headers self) (request_params 100 cursor) 30;
                  print ("Retrieved " ++ str_of_int (len (r :: rs))
                            ++ " logs (Total: "
                            ++ str_of_int (len (all_logs ++ r :: rs)%list) ++ ")");
                  print "All logs downloaded."],
                 Ok (all_logs ++ r :: rs)%list)).
Proof.
  split; [intro limit; split; reflexivity|].
  split; [intros limit net; reflexivity|].
  split.
  - intros max_logs all_logs recs. destruct recs; reflexivity.
  - intros r rs rest all_logs cursor pg. reflexivity.
Qed.

End Fetcher.

(* ================================================================== *)
(** ** Traces *)
(* ================================================================== *)

Local Open Scope list_scope.

Lemma pacing_delays_app :
  forall tr1 tr2, pacing_delays (tr1 ++ tr2) = (pacing_delays tr1 + pacing_delays tr2)%nat.
Proof.
  intros. unfold pacing_delays. now rewrite filter_app, length_app.
Qed.

Lemma fetches_app :
  forall tr1 tr2, fetches (tr1 ++ tr2) = (fetches tr1 + fetches tr2)%nat.
Proof.
  intros. unfold fetches. now rewrite filter_app, length_app.
Qed.

Lemma files_written_app :
  forall tr1 tr2, files_written (tr1 ++ tr2) = (files_written tr1 ++ files_written tr2)%list.
Proof. intros. unfold files_written. apply flat_map_app. Qed.

Lemma returned_prepend :
  forall (A : Type) tr (run : option (trace * result A)),
    returned (prepend tr run) = returned run.
Proof. intros A tr [[tr' [a|e]]|]; reflexivity. Qed.

Lemma last_app_nonempty :
  forall (A : Type) (l1 l2 : list A) d, l2 <> [] -> last (l1 ++ l2) d = last l2 d.
Proof.
  induction l1 as [|a l1 IH]; intros l2 d Hne; [reflexivity|].
  simpl. destruct (l1 ++ l2)%list eqn:E.
  - apply app_eq_nil in E. destruct E; contradiction.
  - rewrite <- E. now apply IH.
Qed.

Ltac break_match :=
  match goal with
  | |- context [match ?x with _ => _ end] => destruct x eqn:?
  | H : context [match ?x with _ => _ end] |- _ => destruct x eqn:?
  end.

(* ================================================================== *)
(** ** The pagination driver *)
(* ================================================================== *)

Section Driver.

Variable self : NextDNSLogDownloader.t.

(** One turn of the loop sleeps once, at its very end, exactly when it
    goes on to another turn; it sends nothing and writes nothing. *)
Lemma loop_body_trace :
  forall max_logs all_logs response tr c,
    loop_body max_logs all_logs response = (tr, c) ->
    fetches tr = 0%nat
    /\ files_written tr = []
    /\ Forall half_second tr
    /\ (if continues c
        then pacing_delays tr = 1%nat
        else pacing_delays tr = 0%nat /\ is_sleep (last tr (print "")) = false).
Proof.
  intros max_logs all_logs response tr c H. unfold loop_body in H.
  repeat break_match; inversion H; subst; clear H; cbn;
    repeat split; repeat constructor; try discriminate;
    unfold half_second; cbn; congruence.
Qed.

(** One turn of the loop that goes on, then the rest of the run. *)
Lemma download_loop_continue :
  forall max_logs response net all_logs cursor pg tr2 logs cursor',
    loop_body max_logs all_logs response = (tr2, Continue logs cursor') ->
    download_loop self max_logs (Returns response :: net) all_logs cursor pg
    = prepend (Print ("Fetching page " ++ str_of_int pg ++ "...")%string " "
                 :: Get (BASE_URL ++ "/profiles/" ++ profile_id self ++ "/logs")%string
                      (session_headers self) (request_params 100 cursor) 30
                 :: tr2)
              (download_loop self max_logs net logs cursor' (pg + 1)).
Proof.
  intros * H. cbn [download_loop get_logs]. now rewrite H.
Qed.

(** One turn of the loop that ends it. *)
Lemma download_loop_break :
  forall max_logs response net all_logs cursor pg tr2 logs,
    loop_body max_logs all_logs response = (tr2, Break logs) ->
    download_loop self max_logs (Returns response :: net) all_logs cursor pg
    = Some (Print ("Fetching page " ++ str_of_int pg ++ "...")%string " "
              :: Get (BASE_URL ++ "/profiles/" ++ profile_id self ++ "/logs")%string
                   (session_headers self) (request_params 100 cursor) 30
              :: tr2,
            Ok logs).
Proof.
  intros * H. cbn [download_loop get_logs]. now rewrite H.
Qed.

Lemma last_without_sleep :
  forall tr, pacing_delays tr = 0%nat -> is_sleep (last tr (print "")) = false.
Proof.
  induction tr as [|e tr IH]; intro H; [reflexivity|].
  unfold pacing_delays in H. cbn [filter] in H.
  destruct (is_sleep e) eqn:He; [discriminate|].
  destruct tr as [|e' tr']; [exact He|].
  change (last (e :: e' :: tr') (print "")) with (last (e' :: tr') (print "")).
  now apply IH.
Qed.

(** The request of [get_logs]: one [Get], no delay, no file. *)
Lemma get_logs_trace :
  forall limit cursor outcome tr r,
    get_logs self limit cursor outcome = (tr, r) ->
    fetches tr = 1%nat /\ pacing_delays tr = 0%nat
    /\ files_written tr = [] /\ Forall half_second tr.
Proof.
  intros limit cursor outcome tr r H. unfold get_logs in H.
  destruct outcome as [body|e]; [|destruct (is_RequestException e)];
    inversion H; subst; repeat split;
    repeat constructor; unfold half_second; discriminate.
Qed.

(** Every run of the loop: one pacing delay between two requests and none
    after the last, each of half a second; no file is written. *)
Lemma download_loop_trace :
  forall max_logs net all_logs cursor pg tr r,
    download_loop self max_logs net all_logs cursor pg = Some (tr, r) ->
    (pacing_delays tr + 1)%nat = fetches tr
    /\ files_written tr = []
    /\ Forall half_second tr
    /\ is_sleep (last tr (print "")) = false.
Proof.
  intros max_logs net. induction net as [|outcome net IH];
    intros all_logs cursor pg tr r H; [discriminate|].
  cbn [download_loop] in H.
  destruct (get_logs self 100 cursor outcome) as [tr1 r1] eqn:Hget.
  destruct (get_logs_trace _ _ _ _ _ Hget) as (Hf1 & Hp1 & Hw1 & Hh1).
  set (fetching := Print ("Fetching page " ++ str_of_int pg ++ "...")%string " ") in H.
  assert (Hhf : half_second fetching) by (unfold half_second; discriminate).
  assert (Hturn : forall tr2 : trace,
             fetches (fetching :: tr1 ++ tr2) = S (fetches tr2)
             /\ pacing_delays (fetching :: tr1 ++ tr2) = pacing_delays tr2
             /\ files_written (fetching :: tr1 ++ tr2) = files_written tr2).
  { intro tr2. change (fetching :: tr1 ++ tr2) with ([fetching] ++ tr1 ++ tr2).
    rewrite !fetches_app, !pacing_delays_app, !files_written_app, Hf1, Hp1, Hw1.
    repeat split. }
  destruct r1 as [response|e].
  - destruct (loop_body max_logs all_logs response) as [tr2 c] eqn:Hbody.
    destruct (loop_body_trace _ _ _ _ _ Hbody) as (Hf2 & Hw2 & Hh2 & Hc).
    destruct (Hturn tr2) as (Hf & Hp & Hw).
    assert (Hh : Forall half_second (fetching :: tr1 ++ tr2)).
    { constructor; [exact Hhf|]. apply Forall_app. now split. }
    destruct c as [logs|logs cursor'|e]; cbn [continues] in Hc.
    + inversion H; subst; clear H. destruct Hc as [Hp2 _].
      rewrite Hf, Hp, Hw, Hf2, Hp2, Hw2. repeat split; [exact Hh|].
      apply last_without_sleep. now rewrite Hp.
    + destruct (download_loop self max_logs net logs cursor' (pg + 1))
        as [[tr' r']|] eqn:Hrest; [|discriminate].
      cbn [prepend] in H. inversion H; subst; clear H.
      destruct (IH _ _ _ _ _ Hrest) as (Hn & Hw' & Hh' & Hl').
      change (fetching :: (tr1 ++ tr2) ++ tr')
        with ((fetching :: tr1 ++ tr2) ++ tr').
      rewrite fetches_app, pacing_delays_app, files_written_app,
        Hf, Hp, Hw, Hf2, Hc, Hw2, Hw'.
      repeat split; [lia| |].
      * apply Forall_app. now split.
      * rewrite last_app_nonempty; [exact Hl'|].
        intros ->. cbn in Hn. discriminate.
    + inversion H; subst; clear H. destruct Hc as [Hp2 _].
      rewrite Hf, Hp, Hw, Hf2, Hp2, Hw2. repeat split; [exact Hh|].
      apply last_without_sleep. now rewrite Hp.
  - inversion H; subst; clear H.
    destruct (Hturn []) as (Hf & Hp & Hw). rewrite app_nil_r in Hf, Hp, Hw.
    rewrite Hf, Hp, Hw. repeat split.
    + constructor; assumption.
    + apply last_without_sleep. now rewrite Hp.
Qed.

Lemma schedule_app :
  forall tr1 tr2, schedule (tr1 ++ tr2) = schedule tr1 ++ schedule tr2.
Proof.
  intros. unfold schedule. now rewrite filter_app, map_app.
Qed.

Lemma loop_body_schedule :
  forall max_logs all_logs response tr c,
    loop_body max_logs all_logs response = (tr, c) ->
    schedule tr = if continues c then [true] else [].
Proof.
  intros max_logs all_logs response tr c H. unfold loop_body in H.
  repeat match type of H with
         | context [match ?x with _ => _ end] => destruct x eqn:?
         end;
    inversion H; subst; reflexivity.
Qed.

Lemma get_logs_schedule :
  forall limit cursor outcome tr r,
    get_logs self limit cursor outcome = (tr, r) -> schedule tr = [false].
Proof.
  intros limit cursor outcome tr r H. unfold get_logs in H.
  destruct outcome as [body|e]; [|destruct (is_RequestException e)];
    inversion H; subst; reflexivity.
Qed.

(** Every run of the loop starts with a request and has exactly one pacing
    delay between each two successive requests, none after the last. *)
Lemma download_loop_schedule :
  forall max_logs net all_logs cursor pg tr r,
    download_loop self max_logs net all_logs cursor pg = Some (tr, r) ->
    schedule tr = alternating (pacing_delays tr).
Proof.
  intros max_logs net. induction net as [|outcome net IH];
    intros all_logs cursor pg tr r H; [discriminate|].
  cbn [download_loop] in H.
  destruct (get_logs self 100 cursor outcome) as [tr1 r1] eqn:Hget.
  pose proof (get_logs_schedule _ _ _ _ _ Hget) as Hs1.
  destruct (get_logs_trace _ _ _ _ _ Hget) as (_ & Hp1 & _).
  set (fetching := Print ("Fetching page " ++ str_of_int pg ++ "...")%string " ") in H.
  assert (Hturn : forall tr2 : trace,
             schedule (fetching :: tr1 ++ tr2) = false :: schedule tr2
             /\ pacing_delays (fetching :: tr1 ++ tr2) = pacing_delays tr2).
  { intro tr2. change (fetching :: tr1 ++ tr2) with ([fetching] ++ tr1 ++ tr2).
    rewrite !schedule_app, !pacing_delays_app, Hs1, Hp1. split; reflexivity. }
  destruct r1 as [response|e].
  - destruct (loop_body max_logs all_logs response) as [tr2 c] eqn:Hbody.
    pose proof (loop_body_schedule _ _ _ _ _ Hbody) as Hs2.
    destruct (loop_body_trace _ _ _ _ _ Hbody) as (_ & _ & _ & Hc).
    destruct (Hturn tr2) as (Hs & Hp).
    destruct c as [logs|logs cursor'|e]; cbn [continues] in Hc, Hs2.
    + inversion H; subst; clear H. destruct Hc as [Hp2 _].
      now rewrite Hs, Hp, Hs2, Hp2.
    + destruct (download_loop self max_logs net logs cursor' (pg + 1))
        as [[tr' r']|] eqn:Hrest; [|discriminate].
      cbn [prepend] in H. inversion H; subst; clear H.
      change (fetching :: (tr1 ++ tr2) ++ tr')
        with ((fetching :: tr1 ++ tr2) ++ tr').
      rewrite schedule_app, pacing_delays_app, Hs, Hp, Hs2, Hc.
      now rewrite (IH _ _ _ _ _ Hrest).
    + inversion H; subst; clear H. destruct Hc as [Hp2 _].
      now rewrite Hs, Hp, Hs2, Hp2.
  - inversion H; subst; clear H.
    destruct (Hturn []) as (Hs & Hp). rewrite app_nil_r in Hs, Hp.
    now rewrite Hs, Hp.
Qed.

(** C6: a page whose record list is empty ends the loop at once, whatever
    its [meta] holds (a cursor or not): nothing is appended to the buffer,
    which is returned as it stands, and the one request of this turn is
    the last, whatever requests could still be answered ([rest]). *)
Theorem empty_page_ends_loop :
  forall max_logs (meta : value) rest all_logs cursor pg,
    loop_body max_logs all_logs (VDict [("data", VList []); ("meta", meta)])
    = ([print "No more logs."], Break all_logs)
    /\ download_loop self max_logs
         (Returns (VDict [("data", VList []); ("meta", meta)]) :: rest)
         all_logs cursor pg
       = Some ([Print ("Fetching page " ++ str_of_int pg ++ "...")%string " ";
                Get (BASE_URL ++ "/profiles/" ++ profile_id self ++ "/logs")%string
                    (session_headers self) (request_params 100 cursor) 30;
                print "No more logs."],
               Ok all_logs)
    /\ (forall c : string,
          returned (download_loop self max_logs
                      (Returns (page [] (Some c)) :: rest) all_logs cursor pg)
          = Some all_logs).
Proof.
  intros. repeat split.
Qed.

(** C7: a page with records and no cursor ends the loop right after its
    records are appended: the buffer with them is returned (cut to the cap
    when the cap is reached by then, whole when there is no cap), after
    one request and no pacing delay. *)
Theorem page_without_cursor_ends_loop :
  forall max_logs (r : value) (rs : list value) (m : dict) rest all_logs cursor pg,
    lookup m "cursor" = None ->
    exists tr,
      download_loop self max_logs
        (Returns (VDict [("data", VList (r :: rs)); ("meta", VDict m)]) :: rest)
        all_logs cursor pg
      = Some (tr,
              Ok (if cap_reached max_logs (all_logs ++ r :: rs)
                  then match max_logs with
                       | Some cap => slice_to (all_logs ++ r :: rs) cap
                       | None => all_logs ++ r :: rs
                       end
                  else all_logs ++ r :: rs))
      /\ fetches tr = 1%nat
      /\ pacing_delays tr = 0%nat
      /\ (max_logs = None ->
          returned (download_loop self max_logs
                      (Returns (VDict [("data", VList (r :: rs)); ("meta", VDict m)])
                         :: rest) all_logs cursor pg)
          = Some (all_logs ++ r :: rs)).
Proof.
  intros max_logs r rs m rest all_logs cursor pg Hm.
  destruct (loop_body max_logs all_logs
              (VDict [("data", VList (r :: rs)); ("meta", VDict m)]))
    as [tr2 c] eqn:Hbody.
  pose proof Hbody as Hbody'.
  unfold loop_body in Hbody. cbn [get lookup String.eqb Ascii.eqb Bool.eqb
    truthy negb iterate] in Hbody.
  unfold get in Hbody. rewrite Hm in Hbody. cbn [truthy negb] in Hbody.
  destruct max_logs as [cap|];
    [destruct (cap_reached (Some cap) (all_logs ++ r :: rs)) eqn:Hcap|];
    inversion Hbody; subst; clear Hbody;
    rewrite (download_loop_break _ _ _ _ _ _ _ _ Hbody');
    eexists; (split; [reflexivity|]);
    (split; [reflexivity|]); (split; [reflexivity|]);
    intro Hnone; try discriminate; reflexivity.
Qed.

(** *** Runs against a simulated API *)

Lemma truthy_cursor : forall c : string, c <> ""%string -> truthy (VStr c) = true.
Proof.
  intros c Hc. cbn [truthy]. apply Bool.negb_true_iff.
  now apply String.eqb_neq.
Qed.

(** A page with records and a cursor, the cap not reached: the records are
    appended and the loop goes on from the cursor. *)
Lemma loop_body_cursor_page :
  forall max_logs all_logs recs (c : string),
    recs <> [] -> c <> ""%string ->
    cap_reached max_logs (all_logs ++ recs) = false ->
    exists tr2,
      loop_body max_logs all_logs (page recs (Some c))
      = (tr2, Continue (all_logs ++ recs) (VStr c)).
Proof.
  intros max_logs all_logs recs c Hrecs Hc Hcap.
  destruct recs as [|r rs]; [contradiction|].
  unfold loop_body, page.
  cbn [get lookup String.eqb Ascii.eqb Bool.eqb truthy negb iterate].
  rewrite Hcap.
  change (negb (c =? ""))%string with (truthy (VStr c)).
  rewrite (truthy_cursor c Hc). cbn [negb]. eexists. reflexivity.
Qed.

(** A page that reaches the cap: the buffer is cut to the cap and the loop
    ends. *)
Lemma loop_body_cap_reached :
  forall cap all_logs recs cursor,
    recs <> [] ->
    cap_reached (Some cap) (all_logs ++ recs) = true ->
    exists tr2,
      loop_body (Some cap) all_logs (page recs cursor)
      = (tr2, Break (slice_to (all_logs ++ recs) cap)).
Proof.
  intros cap all_logs recs cursor Hrecs Hcap.
  destruct recs as [|r rs]; [contradiction|].
  unfold loop_body, page.
  cbn [get lookup String.eqb Ascii.eqb Bool.eqb truthy negb iterate].
  rewrite Hcap. eexists. reflexivity.
Qed.

(** The last page, the cap not reached: its records are appended and the
    loop ends. *)
Lemma loop_body_last_page :
  forall max_logs all_logs last,
    cap_reached max_logs (all_logs ++ last) = false ->
    exists tr2,
      loop_body max_logs all_logs (page last None)
      = (tr2, Break (all_logs ++ last)).
Proof.
  intros max_logs all_logs last Hcap. destruct last as [|r rs].
  - rewrite app_nil_r. eexists. reflexivity.
  - unfold loop_body, page.
    cbn [get lookup String.eqb Ascii.eqb Bool.eqb truthy negb iterate].
    rewrite Hcap. eexists. reflexivity.
Qed.

Lemma download_loop_no_cap :
  forall pages last rest,
    well_formed pages ->
    forall all_logs cursor pg,
    exists tr,
      download_loop self None (simulated pages last ++ rest) all_logs cursor pg
      = Some (tr, Ok (all_logs ++ records pages last))
      /\ pacing_delays tr = List.length pages
      /\ fetches tr = S (List.length pages).
Proof.
  intros pages last rest Hwf.
  induction Hwf as [|[recs c] pages [Hrecs Hc] Hwf IH];
    intros all_logs cursor pg.
  - destruct (loop_body_last_page None all_logs last eq_refl) as [tr2 Hbody].
    unfold simulated. cbn [map app].
    rewrite (download_loop_break _ _ _ _ _ _ _ _ Hbody).
    destruct (loop_body_trace _ _ _ _ _ Hbody) as (Hf & _ & _ & Hp & _).
    eexists. split; [reflexivity|].
    split.
    + change (pacing_delays (?a :: ?b :: tr2))
        with (pacing_delays tr2). exact Hp.
    + change (fetches (?a :: ?b :: tr2)) with (S (fetches tr2)).
      now rewrite Hf.
  - cbn [fst snd] in Hrecs, Hc.
    destruct (loop_body_cursor_page None all_logs recs c Hrecs Hc eq_refl)
      as [tr2 Hbody].
    unfold simulated. cbn [map app fst snd].
    rewrite (download_loop_continue _ _ _ _ _ _ _ _ _ Hbody).
    destruct (loop_body_trace _ _ _ _ _ Hbody) as (Hf & _ & _ & Hp).
    cbn [continues] in Hp.
    destruct (IH (all_logs ++ recs) (VStr c) (pg + 1)%Z) as (tr & Hrun & Hpt & Hft).
    unfold simulated in Hrun. rewrite Hrun. cbn [prepend].
    eexists. split.
    + unfold records. cbn [map fst List.concat]. now rewrite <- !app_assoc.
    + match goal with
      | |- pacing_delays ((?a :: ?b :: tr2) ++ tr) = _ /\ _ =>
          change ((a :: b :: tr2) ++ tr) with ([a; b] ++ tr2 ++ tr)
      end.
      rewrite !pacing_delays_app, !fetches_app, Hp, Hf, Hpt, Hft.
      split; reflexivity.
Qed.

(** X4: With no cap, [download_all_logs] returns all the records of the
    simulated API in delivery order, after one request per page and one
    pacing delay after each page that carries a cursor. *)
Theorem download_all_logs_no_cap :
  forall pages last rest,
    well_formed pages ->
    exists tr,
      download_all_logs self None (simulated pages last ++ rest)
      = Some (tr, Ok (records pages last))
      /\ pacing_delays tr = List.length pages
      /\ fetches tr = S (List.length pages).
Proof.
  intros pages last rest Hwf. unfold download_all_logs.
  destruct (download_loop_no_cap pages last rest Hwf [] VNone 1%Z)
    as (tr & Hrun & Hp & Hf).
  rewrite Hrun. cbn [prepend app]. eexists. split; [reflexivity|].
  split; assumption.
Qed.

Lemma cap_reached_positive :
  forall cap all_logs,
    (1 <= cap)%Z -> cap_reached (Some cap) all_logs = (len all_logs >=? cap)%Z.
Proof.
  intros cap all_logs Hcap. unfold cap_reached. cbn [truthy].
  destruct (Z.eqb_spec cap 0); [lia|reflexivity].
Qed.

Lemma slice_to_nonnegative :
  forall (A : Type) (xs : list A) n,
    (0 <= n)%Z -> slice_to xs n = firstn (Z.to_nat n) xs.
Proof.
  intros A xs n Hn. unfold slice_to.
  destruct (Z.ltb_spec n 0); [lia|reflexivity].
Qed.

Lemma firstn_full_prefix :
  forall (A : Type) n (xs ys : list A),
    (n <= List.length xs)%nat -> firstn n (xs ++ ys) = firstn n xs.
Proof.
  intros A n xs ys Hn. rewrite firstn_app.
  replace (n - List.length xs)%nat with 0%nat by lia.
  cbn [firstn]. apply app_nil_r.
Qed.

Lemma download_loop_positive_cap :
  forall cap pages last rest,
    (1 <= cap)%Z ->
    well_formed pages ->
    forall all_logs cursor pg,
      (len all_logs < cap)%Z ->
      returned (download_loop self (Some cap) (simulated pages last ++ rest)
                  all_logs cursor pg)
      = Some (firstn (Z.to_nat cap) (all_logs ++ records pages last)).
Proof.
  intros cap pages last rest Hcap Hwf.
  induction Hwf as [|[recs c] pages [Hrecs Hc] Hwf IH];
    intros all_logs cursor pg Hlen.
  - unfold simulated, records. cbn [map app List.concat].
    destruct last as [|r rs].
    + rewrite app_nil_r. cbn. f_equal. symmetry. apply firstn_all2.
      unfold len in Hlen. lia.
    + destruct (cap_reached (Some cap) (all_logs ++ r :: rs)) eqn:Hreached.
      * destruct (loop_body_cap_reached cap all_logs (r :: rs) None
                    ltac:(discriminate) Hreached) as [tr2 Hbody].
        rewrite (download_loop_break _ _ _ _ _ _ _ _ Hbody).
        cbn [returned]. f_equal. apply slice_to_nonnegative. lia.
      * destruct (loop_body_last_page _ all_logs (r :: rs) Hreached)
          as [tr2 Hbody].
        rewrite (download_loop_break _ _ _ _ _ _ _ _ Hbody).
        cbn [returned]. f_equal. symmetry. apply firstn_all2.
        rewrite cap_reached_positive in Hreached by exact Hcap.
        unfold len in Hreached. lia.
  - cbn [fst snd] in Hrecs, Hc.
    unfold simulated, records. cbn [map app fst snd List.concat].
    assert (Hrec : all_logs ++ (recs ++ List.concat (map fst pages)) ++ last
                   = (all_logs ++ recs) ++ List.concat (map fst pages) ++ last)
      by now rewrite <- !app_assoc.
    rewrite Hrec.
    destruct (cap_reached (Some cap) (all_logs ++ recs)) eqn:Hreached.
    + destruct (loop_body_cap_reached cap all_logs recs (Some c)
                  Hrecs Hreached) as [tr2 Hbody].
      rewrite (download_loop_break _ _ _ _ _ _ _ _ Hbody).
      cbn [returned]. f_equal.
      rewrite slice_to_nonnegative by lia.
      symmetry. apply firstn_full_prefix.
      rewrite cap_reached_positive in Hreached by exact Hcap.
      unfold len in Hreached. lia.
    + destruct (loop_body_cursor_page _ all_logs recs c Hrecs Hc Hreached)
        as [tr2 Hbody].
      rewrite (download_loop_continue _ _ _ _ _ _ _ _ _ Hbody).
      rewrite returned_prepend.
      apply (IH (all_logs ++ recs) (VStr c) (pg + 1)%Z).
      rewrite cap_reached_positive in Hreached by exact Hcap. lia.
Qed.

(** X5: With a cap of at least 1, [download_all_logs] returns the first [cap]
    records of the simulated API in delivery order (all of them when there
    are fewer): [min cap total] records. *)
Theorem download_all_logs_positive_cap :
  forall cap pages last rest,
    (1 <= cap)%Z ->
    well_formed pages ->
    returned (download_all_logs self (Some cap) (simulated pages last ++ rest))
    = Some (firstn (Z.to_nat cap) (records pages last))
    /\ len (firstn (Z.to_nat cap) (records pages last))
       = Z.min cap (len (records pages last)).
Proof.
  intros cap pages last rest Hcap Hwf. split.
  - unfold download_all_logs. rewrite returned_prepend.
    apply (download_loop_positive_cap cap pages last rest Hcap Hwf [] VNone 1%Z).
    cbn. lia.
  - unfold len. rewrite length_firstn. lia.
Qed.

Lemma loop_body_zero_cap :
  forall all_logs response,
    loop_body (Some 0%Z) all_logs response = loop_body None all_logs response.
Proof.
  intros all_logs response. unfold loop_body.
  destruct response; reflexivity.
Qed.

Lemma download_loop_zero_cap :
  forall net all_logs cursor pg,
    download_loop self (Some 0%Z) net all_logs cursor pg
    = download_loop self None net all_logs cursor pg.
Proof.
  induction net as [|outcome net IH]; intros all_logs cursor pg; [reflexivity|].
  cbn [download_loop].
  destruct (get_logs self 100 cursor outcome) as [tr1 [response|e]];
    [|reflexivity].
  rewrite loop_body_zero_cap.
  destruct (loop_body None all_logs response) as [tr2 [logs|logs cursor'|e]];
    try reflexivity.
  now rewrite IH.
Qed.

(** C1, the code at the cap 0: a cap of 0 is taken for no cap at all (the
    test [max_logs and ...] fails on 0).  Whatever the API answers, the run
    is the run without cap; on one page of two records without cursor it
    returns both records, where [min 0 2] is 0. *)
Theorem zero_cap_is_no_cap :
  (forall net,
      download_all_logs self (Some 0%Z) net = download_all_logs self None net)
  /\ returned (download_all_logs self (Some 0%Z)
                 [Returns (page [rec_ 1; rec_ 2] None)])
     = Some [rec_ 1; rec_ 2]
  /\ len [rec_ 1; rec_ 2] <> Z.min 0 (len [rec_ 1; rec_ 2]).
Proof.
  split; [|split].
  - intro net. unfold download_all_logs. now rewrite download_loop_zero_cap.
  - reflexivity.
  - discriminate.
Qed.

(** C4, as the code has it: in every run the driver sleeps half a second
    exactly once between each two successive requests and never after the
    last one (requests and delays alternate, starting and ending with a
    request; the trace does not end on a delay).  So
    when the API returns three pages of 2 records, each with a cursor, and
    then an empty page, [download_all_logs] without cap returns the 6
    records in order after four requests and three pacing delays; the third
    delay precedes the request that the empty page answers. *)
Theorem pacing_delay_between_requests :
  (forall max_logs net,
      match download_all_logs self max_logs net with
      | Some (tr, _) =>
          schedule tr = alternating (pacing_delays tr)
          /\ (pacing_delays tr + 1)%nat = fetches tr
          /\ Forall half_second tr
          /\ is_sleep (last tr (print "")) = false
      | None => True
      end)
  /\ (exists tr,
        download_all_logs self None three_pages_then_empty
        = Some (tr, Ok [rec_ 1; rec_ 2; rec_ 3; rec_ 4; rec_ 5; rec_ 6])
        /\ fetches tr = 4%nat
        /\ pacing_delays tr = 3%nat).
Proof.
  split.
  - intros max_logs net. unfold download_all_logs.
    destruct (download_loop self max_logs net [] VNone 1)
      as [[tr r]|] eqn:Hrun; cbn [prepend]; [|exact I].
    destruct (download_loop_trace _ _ _ _ _ _ _ Hrun) as (Hn & _ & Hh & Hl).
    split; [exact (download_loop_schedule _ _ _ _ _ _ _ Hrun)|].
    split; [exact Hn|]. split.
    + constructor; [unfold half_second; discriminate|exact Hh].
    + change ([print "Starting log download..."] ++ tr)
        with (print "Starting log download..." :: tr).
      destruct tr as [|e tr']; [reflexivity|exact Hl].
  - eexists. split; [reflexivity|]. split; reflexivity.
Qed.

End Driver.

(** C4, the scenario as the claim counts it: three pages of 2 records, each
    followed by a further request, then an empty page.  The 6 records come
    back in order, and the pacing delay is invoked three times, not twice. *)
Lemma three_pages_then_empty_three_delays :
  returned (download_all_logs sample_downloader None three_pages_then_empty)
  = Some [rec_ 1; rec_ 2; rec_ 3; rec_ 4; rec_ 5; rec_ 6]
  /\ pacing_delays
       (trace_of (download_all_logs sample_downloader None three_pages_then_empty))
     = 3%nat
  /\ pacing_delays
       (trace_of (download_all_logs sample_downloader None three_pages_then_empty))
     <> 2%nat.
Proof.
  split; [reflexivity|]. split; [reflexivity|discriminate].
Qed.

(** With two pacing delays there are three requests: when the third page
    carries no cursor the run ends on it and no empty page is ever asked
    for. *)
Example three_pages_last_without_cursor :
  exists tr,
    download_all_logs sample_downloader None
      [Returns (page [rec_ 1; rec_ 2] (Some "c1"));
       Returns (page [rec_ 3; rec_ 4] (Some "c2"));
       Returns (page [rec_ 5; rec_ 6] None);
       Returns (page [] None)]
    = Some (tr, Ok [rec_ 1; rec_ 2; rec_ 3; rec_ 4; rec_ 5; rec_ 6])
    /\ fetches tr = 3%nat /\ pacing_delays tr = 2%nat.
Proof.
  eexists. split; [reflexivity|]. split; reflexivity.
Qed.

(* ================================================================== *)
(** ** main: credentials and output flags *)
(* ================================================================== *)

Section Main.

Variable lib : requests_library.
Variable environ : list (string * string).

Lemma download_all_logs_writes_nothing :
  forall self max_logs net tr r,
    download_all_logs self max_logs net = Some (tr, r) ->
    files_written tr = [].
Proof.
  intros self max_logs net tr r H. unfold download_all_logs in H.
  destruct (download_loop self max_logs net [] VNone 1) as [[tr' r']|] eqn:Hrun;
    [|discriminate].
  cbn [prepend] in H. inversion H; subst; clear H.
  now destruct (download_loop_trace _ _ _ _ _ _ _ _ Hrun) as (_ & Hw & _).
Qed.

Lemma handle_writes_nothing :
  forall tr e tr' status,
    handle tr e = (tr', status) -> files_written tr = [] ->
    files_written tr' = [] /\ status = 1%Z.
Proof.
  intros tr e tr' status H Hw.
  destruct e; cbn [handle] in H; inversion H; subst;
    rewrite files_written_app, Hw; split; reflexivity.
Qed.

(** C3, as the code has it: when the API key or the profile identifier is
    supplied neither by its flag nor by its environment variable, [main]
    ends in [parser.error]: the usage message is all the process does, no
    request is sent whatever the network would answer, and the exit status
    is 2. *)
Theorem missing_credential_exits_2 :
  forall cl net disk,
    args_api_key (namespace_of environ cl) = None
    \/ args_profile (namespace_of environ cl) = None ->
    exists message,
      main lib environ (Options cl) net disk = Some ([Usage message], 2%Z)
      /\ fetches [Usage message] = 0%nat.
Proof.
  intros cl net disk H. unfold main. cbn [parse_args].
  destruct (given (args_api_key (namespace_of environ cl))) eqn:Hkey;
    cbn [negb].
  - destruct H as [H|H]; [rewrite H in Hkey; discriminate|].
    rewrite H. cbn [given truthy negb]. eexists. split; reflexivity.
  - eexists. split; reflexivity.
Qed.

(** C2, as the code has it: with [--json-only] and [--csv-only] both
    given, each flag suppresses the other file, so no run writes any file,
    one that downloaded records included. *)
Theorem both_only_flags_write_nothing :
  forall cl net disk tr status,
    opt_json_only cl = true ->
    opt_csv_only cl = true ->
    main lib environ (Options cl) net disk = Some (tr, status) ->
    files_written tr = [].
Proof.
  intros cl net disk tr status Hjson Hcsv H. unfold main in H.
  cbn [parse_args namespace_of args_api_key args_profile args_output
         args_max_logs args_json_only args_csv_only] in H.
  rewrite Hjson, Hcsv in H. cbn [negb] in H.
  destruct (given _); cbn [negb] in H;
    [|inversion H; subst; reflexivity].
  destruct (given _); cbn [negb] in H;
    [|inversion H; subst; reflexivity].
  match type of H with
  | context [download_all_logs ?s ?m ?n] =>
      destruct (download_all_logs s m n) as [[tr0 r]|] eqn:Hrun
  end; [|discriminate].
  pose proof (download_all_logs_writes_nothing _ _ _ _ _ Hrun) as Hw.
  destruct r as [logs|e].
  - destruct (truthy (VList logs)); cbn [negb] in H;
      inversion H; subst; clear H;
      rewrite ?app_nil_l, !files_written_app, Hw; reflexivity.
  - destruct (handle tr0 e) as [tr' status'] eqn:Hh.
    inversion H; subst; clear H.
    now destruct (handle_writes_nothing _ _ _ _ Hh Hw).
Qed.

End Main.

Lemma missing_credential_exits_2_witness :
  (args_api_key (namespace_of [] no_api_key) = None
   \/ args_profile (namespace_of [] no_api_key) = None)
  /\ exists message,
      main sample_library [] (Options no_api_key) [] accepting
      = Some ([Usage message], 2%Z)
      /\ fetches [Usage message] = 0%nat.
Proof.
  split.
  - left. reflexivity.
  - apply (missing_credential_exits_2 sample_library [] no_api_key [] accepting).
    left. reflexivity.
Defined.

(** C3, the claim on a run without API key: the exit status is 2, not 1. *)
Lemma missing_api_key_exit_status :
  exit_status (main sample_library [] (Options no_api_key) [] accepting)
  = Some 2%Z
  /\ exit_status (main sample_library [] (Options no_api_key) [] accepting)
     <> Some 1%Z.
Proof.
  split; [reflexivity|discriminate].
Qed.

Lemma both_only_flags_write_nothing_witness :
  opt_json_only both_only_flags = true
  /\ opt_csv_only both_only_flags = true
  /\ main sample_library [] (Options both_only_flags)
          [Returns (page [rec_ 1] None)] accepting
     = Some (trace_of (main sample_library [] (Options both_only_flags)
                         [Returns (page [rec_ 1] None)] accepting), 0%Z)
  /\ files_written
       (trace_of (main sample_library [] (Options both_only_flags)
                    [Returns (page [rec_ 1] None)] accepting)) = [].
Proof.
  split; [reflexivity|]. split; [reflexivity|]. split; [reflexivity|].
  apply (both_only_flags_write_nothing sample_library [] both_only_flags
           [Returns (page [rec_ 1] None)] accepting _ 0%Z); reflexivity.
Defined.

(** C2, the claim on a run that downloads one record with both flags
    given: the record is downloaded, the run ends with status 0, and neither
    [nextdns_logs.json] nor [nextdns_logs.csv] is written. *)
Lemma both_only_flags_no_file :
  returned (download_all_logs (__init__ sample_library "key" "abc123") None
              [Returns (page [rec_ 1] None)]) = Some [rec_ 1]
  /\ exit_status (main sample_library [] (Options both_only_flags)
                    [Returns (page [rec_ 1] None)] accepting)
     = Some 0%Z
  /\ files_written
       (trace_of (main sample_library [] (Options both_only_flags)
                    [Returns (page [rec_ 1] None)] accepting)) = []
  /\ files_written
       (trace_of (main sample_library [] (Options both_only_flags)
                    [Returns (page [rec_ 1] None)] accepting))
     <> ["nextdns_logs.json"%string; "nextdns_logs.csv"%string].
Proof.
  split; [reflexivity|]. split; [reflexivity|]. split; [reflexivity|discriminate].
Qed.

(* ================================================================== *)
(** ** Sets and sorting of field names *)
(* ================================================================== *)

Section FieldNames.

Lemma leb_iff : forall a b : string, (a <=? b)%string = true <-> a = b \/ str_lt a b.
Proof.
  intros a b. unfold String.leb, str_lt, String.ltb.
  destruct (String.compare a b) eqn:E.
  - apply OrderedTypeEx.String_as_OT.cmp_eq in E. intuition.
  - intuition.
  - split; [discriminate|]. intros [->|H]; [|discriminate].
    assert (String.compare b b = Eq) as Hbb
        by now apply OrderedTypeEx.String_as_OT.cmp_eq.
    congruence.
Qed.

Lemma str_lt_trans : forall a b c, str_lt a b -> str_lt b c -> str_lt a c.
Proof.
  unfold str_lt, String.ltb. intros a b c Hab Hbc.
  destruct (String.compare a b) eqn:Eab; try discriminate.
  destruct (String.compare b c) eqn:Ebc; try discriminate.
  apply OrderedTypeEx.String_as_OT.cmp_lt in Eab, Ebc.
  pose proof (OrderedTypeEx.String_as_OT.lt_trans _ _ _ Eab Ebc) as Hac.
  apply OrderedTypeEx.String_as_OT.cmp_lt in Hac.
  unfold OrderedTypeEx.String_as_OT.cmp in Hac. now rewrite Hac.
Qed.

Lemma str_lt_irrefl : forall a, ~ str_lt a a.
Proof.
  unfold str_lt, String.ltb. intros a H.
  assert (String.compare a a = Eq) as Haa
      by now apply OrderedTypeEx.String_as_OT.cmp_eq.
  rewrite Haa in H. discriminate.
Qed.

Lemma leb_false_lt : forall a b : string, (a <=? b)%string = false -> str_lt b a.
Proof.
  intros a b H. destruct (String.leb_total a b) as [H'|H']; [congruence|].
  apply leb_iff in H'. destruct H' as [->|H']; [|exact H'].
  assert ((a <=? a)%string = true) by (apply leb_iff; now left). congruence.
Qed.

Lemma In_insert_sorted :
  forall x k xs, In k (insert_sorted x xs) <-> k = x \/ In k xs.
Proof.
  intros x k xs. induction xs as [|y ys IH]; cbn [insert_sorted].
  - cbn. intuition.
  - destruct (x <=? y)%string; cbn [In] in *; rewrite ?IH; intuition.
Qed.

Lemma In_sorted : forall k xs, In k (sorted xs) <-> In k xs.
Proof.
  intros k xs. induction xs as [|x xs IH]; [reflexivity|].
  unfold sorted in *. cbn [fold_right]. rewrite In_insert_sorted, IH.
  cbn. intuition.
Qed.

(** Inserting a new name keeps a strictly increasing list so. *)
Lemma insert_sorted_increasing :
  forall x xs,
    ~ In x xs -> StronglySorted str_lt xs ->
    StronglySorted str_lt (insert_sorted x xs).
Proof.
  intros x xs Hx Hs. induction Hs as [|y ys Hs IH Hall]; cbn [insert_sorted].
  - repeat constructor.
  - destruct (x <=? y)%string eqn:E.
    + apply leb_iff in E. destruct E as [->|E]; [cbn in Hx; tauto|].
      constructor; [now constructor|].
      constructor; [exact E|].
      eapply Forall_impl; [|exact Hall].
      intros z Hz. now apply (str_lt_trans x y z).
    + apply leb_false_lt in E. constructor.
      * apply IH. cbn in Hx. tauto.
      * apply Forall_forall. intros z Hz. apply In_insert_sorted in Hz.
        destruct Hz as [->|Hz]; [exact E|].
        rewrite Forall_forall in Hall. now apply Hall.
Qed.

(** [sorted] on a list without repeats: strictly increasing. *)
Lemma sorted_increasing :
  forall xs, NoDup xs -> StronglySorted str_lt (sorted xs).
Proof.
  intros xs Hnd. induction Hnd as [|x xs Hx Hnd IH]; [constructor|].
  unfold sorted in *. cbn [fold_right].
  apply insert_sorted_increasing; [|exact IH].
  now rewrite (In_sorted x xs).
Qed.

Lemma In_set_add : forall x k s, In k (set_add x s) <-> k = x \/ In k s.
Proof.
  intros x k s. induction s as [|y s IH]; cbn [set_add].
  - cbn. intuition.
  - destruct (String.eqb_spec y x) as [->|Hne]; cbn [In]; [intuition|].
    rewrite IH. intuition.
Qed.

Lemma NoDup_set_add : forall x s, NoDup s -> NoDup (set_add x s).
Proof.
  intros x s Hnd. induction Hnd as [|y s Hy Hnd IH]; cbn [set_add].
  - repeat constructor. intros [].
  - destruct (String.eqb_spec y x) as [->|Hne]; [now constructor|].
    constructor; [|exact IH].
    rewrite In_set_add. intros [->|H]; [now apply Hne|contradiction].
Qed.

Lemma set_update_spec :
  forall xs s,
    (forall k, In k (set_update s xs) <-> In k s \/ In k xs)
    /\ (NoDup s -> NoDup (set_update s xs)).
Proof.
  unfold set_update. induction xs as [|x xs IH]; intro s; cbn [fold_left].
  - split; [intro k; cbn; intuition|auto].
  - destruct (IH (set_add x s)) as [Hin Hnd]. split.
    + intro k. rewrite Hin, In_set_add. cbn. intuition.
    + intro H. now apply Hnd, NoDup_set_add.
Qed.

End FieldNames.

(* ================================================================== *)
(** ** The CSV exporter *)
(* ================================================================== *)

Section Csv.

Variable filename : string.

Lemma existsb_eqb_In :
  forall k xs, existsb (String.eqb k) xs = true <-> In k xs.
Proof.
  intros k xs. rewrite existsb_exists. split.
  - intros (x & Hx & E). apply String.eqb_eq in E. now subst.
  - intro H. exists k. split; [exact H|apply String.eqb_refl].
Qed.


(** The first loop over records that are all mappings: it does not fail,
    and collects exactly the flattened keys, each once. *)
Lemma collect_fieldnames_dicts :
  forall (ds : list dict) fieldnames,
  exists collected,
    collect_fieldnames fieldnames (map VDict ds) = Ok collected
    /\ (forall k, In k collected
                  <-> In k fieldnames
                      \/ exists d, In d ds /\ In k (keys (_flatten_dict d "" "_")))
    /\ (NoDup fieldnames -> NoDup collected).
Proof.
  induction ds as [|d ds IH]; intro fieldnames; cbn [map collect_fieldnames].
  - exists fieldnames. split; [reflexivity|]. split; [|auto].
    intro k. split; [auto|]. intros [H|(d & [] & _)]. exact H.
  - cbn [flatten_log].
    destruct (set_update_spec (keys (_flatten_dict d "" "_")) fieldnames)
      as [Hin Hnd].
    destruct (IH (set_update fieldnames (keys (_flatten_dict d "" "_"))))
      as (collected & Hrun & Hmem & Hnd').
    exists collected. split; [exact Hrun|]. split; [|auto].
    intro k. rewrite Hmem, Hin. split.
    + intros [[H|H]|(d' & Hd' & H)]; [now left| |].
      * right. exists d. split; [now left|exact H].
      * right. exists d'. split; [now right|exact H].
    + intros [H|(d' & [<-|Hd'] & H)]; [now left; left|now left; right|].
      right. exists d'. now split.
Qed.

(** A row whose keys are all field names: one cell per field name, empty
    for a field the row lacks. *)
Lemma dict_to_list_ok :
  forall fieldnames (rowdict : dict),
    (forall k, In k (keys rowdict) -> In k fieldnames) ->
    dict_to_list fieldnames rowdict
    = Ok (map (fun key => get rowdict key (VStr "")) fieldnames).
Proof.
  intros fieldnames rowdict Hsub. unfold dict_to_list.
  replace (filter _ (keys rowdict)) with (@nil string); [reflexivity|].
  symmetry. induction (keys rowdict) as [|k ks IH]; [reflexivity|].
  cbn [filter].
  assert (existsb (String.eqb k) fieldnames = true) as ->
      by (apply existsb_eqb_In, Hsub; now left).
  cbn [negb]. apply IH. intros k' Hk'. apply Hsub. now right.
Qed.

(** The header row: the field names under themselves. *)
Lemma lookup_header :
  forall (fieldnames : list string) key,
    In key fieldnames ->
    lookup (map (fun k => (k, VStr k)) fieldnames) key = Some (VStr key).
Proof.
  induction fieldnames as [|k ks IH]; intros key Hin; [destruct Hin|].
  cbn [map lookup]. destruct (String.eqb_spec k key) as [->|Hne]; [reflexivity|].
  destruct Hin as [Hin|Hin]; [contradiction|]. now apply IH.
Qed.

Lemma header_row :
  forall fieldnames : list string,
    dict_to_list fieldnames (map (fun key => (key, VStr key)) fieldnames)
    = Ok (map VStr fieldnames).
Proof.
  intro fieldnames. rewrite dict_to_list_ok.
  - f_equal. apply map_ext_in. intros key Hkey. unfold get.
    now rewrite lookup_header.
  - intros k Hk. unfold keys in Hk. rewrite map_map in Hk. cbn [fst] in Hk.
    now rewrite map_id in Hk.
Qed.

(** The second loop on a file that takes every write: one line per record,
    in order. *)
Lemma write_rows_accepted :
  forall fieldnames (ds : list dict),
    (forall d k, In d ds -> In k (keys (_flatten_dict d "" "_")) ->
                 In k fieldnames) ->
    write_rows None filename fieldnames (map VDict ds)
    = (map (fun d =>
              WriteRow filename
                (map (fun key => get (_flatten_dict d "" "_") key (VStr ""))
                     fieldnames)) ds,
       Ok None).
Proof.
  intros fieldnames ds. induction ds as [|d ds IH]; intro Hsub; [reflexivity|].
  cbn [map write_rows flatten_log]. unfold writerow.
  rewrite dict_to_list_ok by (intros k Hk; apply (Hsub d k); [now left|exact Hk]).
  cbn [write].
  rewrite IH by (intros d' k Hd' Hk; apply (Hsub d' k); [now right|exact Hk]).
  reflexivity.
Qed.

(** The second loop on a file that takes [n] more writes: the first [n]
    lines are written, and the loop ends normally only when that is all of
    them. *)
Lemma write_rows_budget :
  forall fieldnames (ds : list dict) n e,
    (forall d k, In d ds -> In k (keys (_flatten_dict d "" "_")) ->
                 In k fieldnames) ->
    write_rows (Some (n, e)) filename fieldnames (map VDict ds)
    = (map (WriteRow filename)
           (firstn n
              (map (fun d =>
                      map (fun key => get (_flatten_dict d "" "_") key (VStr ""))
                          fieldnames) ds)),
       if (n <? List.length ds)%nat then Raised e
       else Ok (Some ((n - List.length ds)%nat, e))).
Proof.
  intros fieldnames ds. induction ds as [|d ds IH]; intros n e Hsub.
  - cbn [map write_rows List.length]. rewrite firstn_nil, Nat.sub_0_r.
    reflexivity.
  - cbn [map write_rows flatten_log]. unfold writerow.
    rewrite dict_to_list_ok by (intros k Hk; apply (Hsub d k); [now left|exact Hk]).
    destruct n as [|n]; [reflexivity|].
    cbn [write].
    rewrite IH by (intros d' k Hd' Hk; apply (Hsub d' k); [now right|exact Hk]).
    reflexivity.
Qed.

End Csv.

(* ================================================================== *)
(** ** The flattener *)
(* ================================================================== *)

Section Flattener.

Local Open Scope string_scope.

(** The first example of the specification. *)
Example flatten_nested_and_list :
  _flatten_dict [("a", VDict [("b", VInt 1)]); ("c", VList [VInt 1; VInt 2])]
                "" "_"
  = [("a_b", VInt 1); ("c", VStr "1, 2")].
Proof. reflexivity. Qed.

(** The second example of the specification. *)
Example flatten_empty_list :
  _flatten_dict [("a", VList [])] "" "_" = [("a", VStr "")].
Proof. reflexivity. Qed.

(** A scalar keeps its value and its type, under the key built for it. *)
Lemma flatten_scalar_entry :
  forall k v parent_key sep,
    is_scalar v = true ->
    _flatten_dict [(k, v)] parent_key sep
    = [(if truthy (VStr parent_key) then parent_key ++ sep ++ k else k, v)].
Proof.
  intros k v parent_key sep Hv.
  destruct v; try discriminate; reflexivity.
Qed.

(** A list becomes the text of its elements, joined with a comma and a
    space; the empty list becomes the empty text. *)
Lemma flatten_list_entry :
  forall k items parent_key sep,
    _flatten_dict [(k, VList items)] parent_key sep
    = [(if truthy (VStr parent_key) then parent_key ++ sep ++ k else k,
        VStr (join ", " (map str items)))].
Proof.
  intros k items parent_key sep. destruct items; reflexivity.
Qed.

(** Under a parent key that is not empty, the keys of a nested mapping are
    joined to it with the separator. *)
Lemma flatten_nested_entry :
  forall k k' v,
    k <> "" -> is_scalar v = true ->
    _flatten_dict [(k, VDict [(k', v)])] "" "_" = [(k ++ "_" ++ k', v)].
Proof.
  intros k k' v Hk Hv.
  unfold _flatten_dict.
  cbn [flatten_object flat_map app truthy].
  cbn [String.eqb negb].
  assert (truthy (VStr k) = true) as Ht
      by (cbn [truthy]; apply Bool.negb_true_iff; now apply String.eqb_neq).
  cbn [truthy] in Ht. rewrite Ht.
  destruct v; try discriminate; reflexivity.
Qed.

Lemma append_nonempty :
  forall a b : string, a <> "" -> a ++ b <> "".
Proof.
  intros a b Ha. destruct a; [contradiction|discriminate].
Qed.

Lemma flat_map_ext_Forall :
  forall (A B : Type) (f g : A -> list B) (l : list A),
    Forall (fun x => f x = g x) l -> flat_map f l = flat_map g l.
Proof.
  intros A B f g l H. induction H as [|x l Hx _ IH]; [reflexivity|].
  cbn [flat_map]. now rewrite Hx, IH.
Qed.

(** Below a parent key that is not empty, the code flattens as the
    specification says, at every depth. *)
Lemma flatten_object_below_parent :
  forall (v : value) (parent_key sep : string),
    parent_key <> "" ->
    flatten_object v parent_key sep = flatten_spec v (Some parent_key) sep.
Proof.
  intro v. induction v using value_nested_ind;
    intros parent_key sep Hparent; try reflexivity.
  cbn [flatten_object flatten_spec]. f_equal.
  apply flat_map_ext_Forall.
  eapply Forall_impl; [|exact H].
  intros [k v] IH. cbn [snd] in IH.
  assert (truthy (VStr parent_key) = true) as ->
      by (cbn [truthy]; apply Bool.negb_true_iff; now apply String.eqb_neq).
  destruct v; try reflexivity.
  - destruct items; reflexivity.
  - apply IH. now apply append_nonempty.
Qed.

Lemma flatten_dict_as_specified :
  forall (d : dict) (sep : string),
    (forall k d', In (k, VDict d') d -> k <> "") ->
    _flatten_dict d "" sep = flatten_spec (VDict d) None sep.
Proof.
  intros d sep Hkeys. unfold _flatten_dict.
  cbn [flatten_object flatten_spec]. f_equal.
  apply flat_map_ext_Forall. apply Forall_forall.
  intros [k v] Hin. cbn [truthy String.eqb negb].
  destruct v; try reflexivity.
  - destruct items; reflexivity.
  - apply flatten_object_below_parent. exact (Hkeys k entries Hin).
Qed.

(** X14: When no nested mapping sits under an empty top-level key, the code
    flattens a record as the specification says. *)
Theorem flatten_dict_refines_spec :
  forall (d : dict) (sep : string),
    (forall k d', In (k, VDict d') d -> k <> "") ->
    _flatten_dict d "" sep = flatten_spec (VDict d) None sep.
Proof. exact flatten_dict_as_specified. Qed.

(** C8, the code on a mapping stored under the empty key: the parent key
    being empty, the test [if parent_key] takes the nested mapping for the
    top level and its key is not joined with the separator: the result has
    the key [b], where joining the keys with the separator gives [_b]; next
    to a top-level key [b] the nested value is lost. *)
Theorem flatten_under_empty_key :
  _flatten_dict [("", VDict [("b", VInt 1)])] "" "_" = [("b", VInt 1)]
  /\ flatten_spec (VDict [("", VDict [("b", VInt 1)])]) None "_"
     = [("_b", VInt 1)]
  /\ _flatten_dict [("", VDict [("b", VInt 1)])] "" "_"
     <> flatten_spec (VDict [("", VDict [("b", VInt 1)])]) None "_"
  /\ _flatten_dict [("", VDict [("b", VInt 1)]); ("b", VInt 2)] "" "_"
     = [("b", VInt 2)].
Proof.
  split; [reflexivity|]. split; [reflexivity|].
  split; [discriminate|reflexivity].
Qed.

End Flattener.

Lemma page_without_cursor_ends_loop_witness :
  lookup [("total", VInt 2)] "cursor" = None
  /\ exists tr,
      download_loop sample_downloader None
        [Returns (VDict [("data", VList [rec_ 1; rec_ 2]);
                         ("meta", VDict [("total", VInt 2)])])]
        [rec_ 0] VNone 1
      = Some (tr, Ok [rec_ 0; rec_ 1; rec_ 2])
      /\ fetches tr = 1%nat
      /\ pacing_delays tr = 0%nat
      /\ (@None Z = None ->
          returned
            (download_loop sample_downloader None
               [Returns (VDict [("data", VList [rec_ 1; rec_ 2]);
                                ("meta", VDict [("total", VInt 2)])])]
               [rec_ 0] VNone 1)
          = Some [rec_ 0; rec_ 1; rec_ 2]).
Proof.
  split; [reflexivity|].
  apply (page_without_cursor_ends_loop sample_downloader None (rec_ 1) [rec_ 2]
           [("total"%string, VInt 2)] [] [rec_ 0] VNone 1%Z).
  reflexivity.
Defined.

(* ================================================================== *)
(** ** Sample runs *)
(* ================================================================== *)

(** Two records with different fields: the header is the sorted union of
    the flattened keys and each record leaves the cells of the keys it lacks
    empty. *)
Example save_to_csv_two_records :
  save_to_csv
    [VDict [("id", VInt 1)];
     VDict [("a", VDict [("b", VInt 1)]); ("c", VList [VInt 1; VInt 2])]]
    "out.csv" Accepts
  = ([Open "out.csv";
      WriteRow "out.csv" [VStr "a_b"; VStr "c"; VStr "id"];
      WriteRow "out.csv" [VStr ""; VStr ""; VInt 1];
      WriteRow "out.csv" [VInt 1; VStr "1, 2"; VStr ""];
      print "Saved 2 logs to out.csv"],
     Ok tt).
Proof. reflexivity. Qed.

(** The same export on a file that takes the header and one row and then
    fails: the exception leaves [save_to_csv], and the file is left with
    the header and the first of the two rows. *)
Example save_to_csv_disk_full :
  save_to_csv
    [VDict [("id", VInt 1)];
     VDict [("a", VDict [("b", VInt 1)]); ("c", VList [VInt 1; VInt 2])]]
    "out.csv" (WriteRaises 2 (OSError "[Errno 28] No space left on device"))
  = ([Open "out.csv";
      WriteRow "out.csv" [VStr "a_b"; VStr "c"; VStr "id"];
      WriteRow "out.csv" [VStr ""; VStr ""; VInt 1]],
     Raised (OSError "[Errno 28] No space left on device")).
Proof. reflexivity. Qed.

(** Each flag alone suppresses the other file; no flag, both files. *)
Example json_only_writes_json :
  files_written
    (trace_of (main sample_library
                 [("NEXTDNS_API_KEY", "key"); ("NEXTDNS_PROFILE_ID", "abc123")]%string
                 (Options {| opt_api_key := None; opt_profile := None;
                             opt_output := Some "logs"%string;
                             opt_max_logs := None;
                             opt_json_only := true; opt_csv_only := false |})
                 [Returns (page [rec_ 1] None)] accepting))
  = ["logs.json"%string].
Proof. reflexivity. Qed.

Example csv_only_writes_csv :
  files_written
    (trace_of (main sample_library []
                 (Options {| opt_api_key := Some "key"%string;
                             opt_profile := Some "abc123"%string;
                             opt_output := None; opt_max_logs := None;
                             opt_json_only := false; opt_csv_only := true |})
                 [Returns (page [rec_ 1] None)] accepting))
  = ["nextdns_logs.csv"%string].
Proof. reflexivity. Qed.

Example no_flag_writes_both :
  main sample_library []
       (Options {| opt_api_key := Some "key"%string;
                   opt_profile := Some "abc123"%string;
                   opt_output := None; opt_max_logs := Some 1%Z;
                   opt_json_only := false; opt_csv_only := false |})
       [Returns (page [rec_ 1; rec_ 2] (Some "c1"%string))] accepting
  = Some ([print "Starting log download...";
           Print "Fetching page 1..." " ";
           Get "https://api.nextdns.io/profiles/abc123/logs"
               [("User-Agent"%string, VStr "python-requests/2.31.0");
                ("Accept-Encoding"%string, VStr "gzip, deflate");
                ("Accept"%string, VStr "*/*");
                ("Connection"%string, VStr "keep-alive");
                ("X-Api-Key"%string, VStr "key")]
               [("limit"%string, VInt 100)] 30;
           print "Retrieved 2 logs (Total: 2)";
           print "Reached maximum log limit of 1";
           Open "nextdns_logs.json";
           Dump "nextdns_logs.json" [rec_ 1];
           print "Saved 1 logs to nextdns_logs.json";
           Open "nextdns_logs.csv";
           WriteRow "nextdns_logs.csv" [VStr "id"];
           WriteRow "nextdns_logs.csv" [VInt 1];
           print "Saved 1 logs to nextdns_logs.csv";
           print (nl ++ "Download complete! Total logs: 1")%string],
          0%Z).
Proof. reflexivity. Qed.

(** A failed request is the end of the stream for the driver: the records
    fetched so far are returned and exported, and the process exits 0. *)
Example transport_failure_ends_download :
  exists tr,
    main sample_library []
         (Options {| opt_api_key := Some "key"%string;
                     opt_profile := Some "abc123"%string;
                     opt_output := None; opt_max_logs := None;
                     opt_json_only := true; opt_csv_only := false |})
         [Returns (page [rec_ 1] (Some "c1"%string));
          Raises (RequestException Timeout "timed out")] accepting
    = Some (tr, 0%Z)
    /\ files_written tr = ["nextdns_logs.json"%string]
    /\ In (Dump "nextdns_logs.json" [rec_ 1]) tr
    /\ In (print "Error fetching logs: timed out") tr.
Proof.
  eexists. split; [reflexivity|]. split; [reflexivity|].
  split; cbn; intuition.
Qed.

(** An interrupt during a request is not caught by [get_logs]; [main]
    reports it and exits 1 without writing. *)
Example interrupt_exits_1 :
  exists tr,
    main sample_library []
         (Options {| opt_api_key := Some "key"%string;
                     opt_profile := Some "abc123"%string;
                     opt_output := None; opt_max_logs := None;
                     opt_json_only := false; opt_csv_only := false |})
         [Returns (page [rec_ 1] (Some "c1"%string)); Raises KeyboardInterrupt]
         accepting
    = Some (tr, 1%Z)
    /\ files_written tr = [].
Proof.
  eexists. split; reflexivity.
Qed.

(** A JSON file that cannot be opened: [main] reports the error and exits
    1, and the CSV file is not attempted. *)
Example unwritable_json_exits_1 :
  main sample_library []
       (Options {| opt_api_key := Some "key"%string;
                   opt_profile := Some "abc123"%string;
                   opt_output := Some "/logs"%string; opt_max_logs := None;
                   opt_json_only := false; opt_csv_only := false |})
       [Returns (page [rec_ 1] None)]
       (fun _ => OpenRaises (OSError "[Errno 13] Permission denied: '/logs.json'"))
  = Some ([print "Starting log download...";
           Print "Fetching page 1..." " ";
           Get "https://api.nextdns.io/profiles/abc123/logs"
               (session_headers sample_downloader)
               [("limit"%string, VInt 100)] 30;
           print "Retrieved 1 logs (Total: 1)";
           print "All logs downloaded.";
           print (nl ++ "Error: [Errno 13] Permission denied: '/logs.json'")%string],
          1%Z).
Proof. reflexivity. Qed.

(** The exits of [argparse] itself: the help text with status 0, a rejected
    command line with status 2. *)
Example help_exits_0 :
  main sample_library [] HelpOption [] accepting = Some ([PrintHelp], 0%Z).
Proof. reflexivity. Qed.

Example rejected_command_line_exits_2 :
  main sample_library [("NEXTDNS_API_KEY", "key"); ("NEXTDNS_PROFILE_ID", "abc123")]%string
       (Invalid "argument --max-logs: invalid int value: 'abc'") [] accepting
  = Some ([Usage "argument --max-logs: invalid int value: 'abc'"], 2%Z).
Proof. reflexivity. Qed.

(* ================================================================== *)
(** ** The driver on arbitrary answers *)
(* ================================================================== *)

Section DriverRuns.

Variable self : NextDNSLogDownloader.t.

(** What is iterated over, when it is true, has an element. *)
Lemma iterate_truthy_nonempty :
  forall v items, truthy v = true -> iterate v = Ok items -> items <> [].
Proof.
  intros v items Ht Hi.
  destruct v as [| | | |[|a s]|[|x l]|[|kv d]];
    cbn [iterate truthy] in Hi, Ht; try discriminate;
    inversion Hi; subst; cbn; discriminate.
Qed.

(** The ways one turn of the loop can end, read off [loop_body]. *)
Lemma loop_body_cases :
  forall max_logs all_logs response tr c,
    loop_body max_logs all_logs response = (tr, c) ->
    match c with
    | Break logs =>
        logs = all_logs
        \/ exists r items,
            response = VDict r
            /\ iterate (get r "data" (VList [])) = Ok items
            /\ items <> []
            /\ ((cap_reached max_logs (all_logs ++ items) = false
                 /\ logs = all_logs ++ items)
                \/ (exists cap, max_logs = Some cap
                                /\ cap_reached max_logs (all_logs ++ items) = true
                                /\ logs = slice_to (all_logs ++ items) cap))
    | Continue logs cursor =>
        exists r items,
          response = VDict r
          /\ iterate (get r "data" (VList [])) = Ok items
          /\ items <> []
          /\ cap_reached max_logs (all_logs ++ items) = false
          /\ logs = all_logs ++ items
          /\ truthy cursor = true
    | Raise _ => True
    end.
Proof.
  intros max_logs all_logs response tr c H. unfold loop_body in H.
  destruct response as [| | | | | |r]; try (inversion H; subst; exact I).
  destruct (truthy (get r "data" (VList []))) eqn:Hlogs; cbn [negb] in H;
    [|inversion H; subst; now left].
  destruct (iterate (get r "data" (VList []))) as [items|e] eqn:Hiter;
    [|inversion H; subst; exact I].
  pose proof (iterate_truthy_nonempty _ _ Hlogs Hiter) as Hne.
  destruct (cap_reached max_logs (all_logs ++ items)) eqn:Hcap.
  - inversion H; subst; clear H. right. exists r, items.
    repeat split; try assumption. right.
    destruct max_logs as [cap|]; [|discriminate].
    exists cap. now repeat split.
  - destruct (get r "meta" (VDict [])) as [| | | | | |m];
      try (inversion H; subst; exact I).
    destruct (truthy (get m "cursor" VNone)) eqn:Hcur; cbn [negb] in H;
      inversion H; subst; clear H.
    + exists r, items. now repeat split.
    + right. exists r, items. repeat split; try assumption. now left.
Qed.

Lemma length_slice_to :
  forall (A : Type) (xs : list A) n, (0 <= n)%Z -> (len (slice_to xs n) <= n)%Z.
Proof.
  intros A xs n Hn. rewrite slice_to_nonnegative by exact Hn.
  unfold len. rewrite length_firstn. lia.
Qed.

Lemma len_app :
  forall (A : Type) (xs ys : list A), len (xs ++ ys) = (len xs + len ys)%Z.
Proof. intros. unfold len. rewrite length_app. lia. Qed.

Lemma len_nonempty :
  forall (A : Type) (xs : list A), xs <> [] -> (1 <= len xs)%Z.
Proof. intros A [|x xs] H; [contradiction|]. unfold len. cbn. lia. Qed.

Lemma cap_not_reached :
  forall cap (all_logs : list value),
    (1 <= cap)%Z -> cap_reached (Some cap) all_logs = false ->
    (len all_logs < cap)%Z.
Proof.
  intros cap all_logs Hcap H. rewrite cap_reached_positive in H by exact Hcap.
  rewrite Z.geb_leb in H. now apply Z.leb_gt in H.
Qed.

Lemma download_loop_within_cap :
  forall cap, (1 <= cap)%Z ->
  forall net all_logs cursor pg tr logs,
    (len all_logs < cap)%Z ->
    download_loop self (Some cap) net all_logs cursor pg = Some (tr, Ok logs) ->
    (len logs <= cap)%Z.
Proof.
  intros cap Hcap. induction net as [|outcome net IH];
    intros all_logs cursor pg tr logs Hlen H; [discriminate|].
  cbn [download_loop] in H.
  destruct (get_logs self 100 cursor outcome) as [tr1 [response|e]];
    [|discriminate].
  destruct (loop_body (Some cap) all_logs response) as [tr2 c] eqn:Hbody.
  pose proof (loop_body_cases _ _ _ _ _ Hbody) as Hc.
  destruct c as [logs'|logs' cursor'|e]; [| |discriminate].
  - inversion H; subst; clear H.
    destruct Hc as [->|(r & items & _ & _ & _ & [[Hno ->]|(cap' & E & _ & ->)])].
    + lia.
    + pose proof (cap_not_reached _ _ Hcap Hno). lia.
    + inversion E; subst. apply length_slice_to. lia.
  - destruct Hc as (r & items & _ & _ & _ & Hno & -> & _).
    destruct (download_loop self (Some cap) net (all_logs ++ items) cursor' (pg + 1))
      as [[tr' r']|] eqn:Hrest; [|discriminate].
    cbn [prepend] in H. inversion H; subst; clear H.
    apply (IH _ _ _ _ _ (cap_not_reached _ _ Hcap Hno) Hrest).
Qed.

(** X6: A cap of at least 1 is never exceeded: whatever the API answers, a
    download that returns returns at most [cap] records. *)
Theorem download_never_exceeds_cap :
  forall cap net tr logs,
    (1 <= cap)%Z ->
    download_all_logs self (Some cap) net = Some (tr, Ok logs) ->
    (len logs <= cap)%Z.
Proof.
  intros cap net tr logs Hcap H. unfold download_all_logs in H.
  destruct (download_loop self (Some cap) net [] VNone 1) as [[tr' r]|] eqn:Hrun;
    [|discriminate].
  cbn [prepend] in H. inversion H; subst; clear H.
  apply (download_loop_within_cap cap Hcap net [] VNone 1%Z tr' logs);
    [unfold len; cbn; lia|exact Hrun].
Qed.

Lemma download_loop_ends_within_cap :
  forall cap, (1 <= cap)%Z ->
  forall net all_logs cursor pg,
    (len all_logs < cap)%Z ->
    (Z.to_nat (cap - len all_logs) <= List.length net)%nat ->
    exists tr r,
      download_loop self (Some cap) net all_logs cursor pg = Some (tr, r)
      /\ (fetches tr <= Z.to_nat (cap - len all_logs))%nat.
Proof.
  intros cap Hcap. induction net as [|outcome net IH];
    intros all_logs cursor pg Hlen Hnet; [cbn in Hnet; lia|].
  cbn [download_loop].
  destruct (get_logs self 100 cursor outcome) as [tr1 r1] eqn:Hget.
  destruct (get_logs_trace _ _ _ _ _ _ Hget) as (Hf1 & _).
  assert (Hturn : forall tr2 : trace,
             fetches (Print ("Fetching page " ++ str_of_int pg ++ "...")%string " "
                        :: tr1 ++ tr2) = S (fetches tr2)).
  { intro tr2.
    change (?a :: tr1 ++ tr2) with ([a] ++ tr1 ++ tr2).
    now rewrite !fetches_app, Hf1. }
  destruct r1 as [response|e].
  - destruct (loop_body (Some cap) all_logs response) as [tr2 c] eqn:Hbody.
    pose proof (loop_body_cases _ _ _ _ _ Hbody) as Hc.
    destruct (loop_body_trace _ _ _ _ _ Hbody) as (Hf2 & _).
    destruct c as [logs'|logs' cursor'|e].
    + eexists _, _. split; [reflexivity|]. rewrite Hturn, Hf2. lia.
    + destruct Hc as (r & items & _ & _ & Hne & Hno & -> & _).
      apply (cap_not_reached _ _ Hcap) in Hno.
      pose proof (len_nonempty _ _ Hne) as Hitems.
      rewrite len_app in Hno.
      destruct (IH (all_logs ++ items) cursor' (pg + 1)%Z) as (tr' & r' & Hrun & Hf').
      * rewrite len_app. lia.
      * rewrite len_app. cbn [List.length] in Hnet. lia.
      * rewrite Hrun. cbn [prepend]. eexists _, _. split; [reflexivity|].
        change (?a :: (tr1 ++ tr2) ++ tr') with ((a :: tr1 ++ tr2) ++ tr').
        rewrite fetches_app, Hturn, Hf2. rewrite len_app in Hf'. lia.
    + eexists _, _. split; [reflexivity|]. rewrite Hturn, Hf2. lia.
  - eexists _, _. split; [reflexivity|].
    specialize (Hturn []). rewrite app_nil_r in Hturn. rewrite Hturn. cbn. lia.
Qed.

(** X7: With a cap of at least 1 the download ends after at most [cap]
    requests, whatever the API answers: every page fetched adds a record. *)
Theorem download_ends_within_cap_requests :
  forall cap net,
    (1 <= cap)%Z ->
    (Z.to_nat cap <= List.length net)%nat ->
    exists tr r,
      download_all_logs self (Some cap) net = Some (tr, r)
      /\ (fetches tr <= Z.to_nat cap)%nat.
Proof.
  intros cap net Hcap Hnet. unfold download_all_logs.
  destruct (download_loop_ends_within_cap cap Hcap net [] VNone 1%Z)
    as (tr & r & Hrun & Hf).
  - unfold len. cbn. lia.
  - unfold len. cbn. now rewrite Z.sub_0_r.
  - rewrite Hrun. cbn [prepend]. eexists _, _. split; [reflexivity|].
    unfold len in Hf. cbn in Hf. rewrite Z.sub_0_r in Hf. exact Hf.
Qed.

End DriverRuns.

Section DriverPages.

Variable self : NextDNSLogDownloader.t.


Lemma no_fetch_no_get :
  forall tr, fetches tr = 0%nat -> Forall (fun e => is_get e = false) tr.
Proof.
  induction tr as [|e tr IH]; intro H; [constructor|].
  unfold fetches in H. cbn [filter] in H.
  destruct (is_get e) eqn:He; [discriminate|].
  constructor; [exact He|]. now apply IH.
Qed.


(** On pages that all have records and a non-empty cursor the loop without
    cap never ends: it goes through all of them and asks for more. *)
Lemma download_loop_keeps_asking :
  forall pages,
    well_formed pages ->
    forall all_logs cursor pg,
      download_loop self None
        (map (fun p => Returns (page (fst p) (Some (snd p)))) pages)
        all_logs cursor pg
      = None.
Proof.
  intros pages Hwf. induction Hwf as [|[recs c] pages [Hrecs Hc] _ IH];
    intros all_logs cursor pg; [reflexivity|].
  cbn [fst snd] in Hrecs, Hc. cbn [map fst snd].
  destruct (loop_body_cursor_page None all_logs recs c Hrecs Hc eq_refl)
    as [tr2 Hbody].
  rewrite (download_loop_continue self _ _ _ _ _ _ _ _ _ Hbody).
  now rewrite IH.
Qed.

(** X8: Without a cap nothing bounds the loop: as long as every page has
    records and a non-empty cursor, [download_all_logs] does not return. *)
Theorem download_without_cap_keeps_asking :
  forall pages,
    well_formed pages ->
    download_all_logs self None
      (map (fun p => Returns (page (fst p) (Some (snd p)))) pages)
    = None.
Proof.
  intros pages Hwf. unfold download_all_logs.
  now rewrite (download_loop_keeps_asking pages Hwf).
Qed.

Lemma slice_to_is_prefix :
  forall (A : Type) (xs : list A) n, exists rest, xs = slice_to xs n ++ rest.
Proof.
  intros A xs n. unfold slice_to.
  destruct (n <? 0)%Z; eexists; symmetry; apply firstn_skipn.
Qed.

Lemma download_loop_returns_prefix :
  forall max_logs pages all_logs cursor pg tr logs,
    download_loop self max_logs (pages_of pages) all_logs cursor pg
    = Some (tr, Ok logs) ->
    exists rest, all_logs ++ List.concat (map fst pages) = logs ++ rest.
Proof.
  intros max_logs pages. induction pages as [|[recs c] pages IH];
    intros all_logs cursor pg tr logs H; [discriminate|].
  cbn [pages_of map fst snd download_loop get_logs] in H.
  destruct (loop_body max_logs all_logs (page recs c)) as [tr2 ctl] eqn:Hbody.
  pose proof (loop_body_cases _ _ _ _ _ Hbody) as Hc.
  cbn [List.concat map fst].
  destruct ctl as [logs'|logs' cursor'|e]; [| |discriminate].
  - inversion H; subst; clear H.
    destruct Hc as [->|(r & items & Hr & Hiter & _ & Hend)].
    + eexists. reflexivity.
    + inversion Hr; subst r; clear Hr.
      cbn in Hiter. inversion Hiter; subst items; clear Hiter.
      destruct Hend as [[_ ->]|(cap & _ & _ & ->)].
      * eexists. now rewrite app_assoc.
      * destruct (slice_to_is_prefix _ (all_logs ++ recs) cap) as [rest Hrest].
        exists (rest ++ List.concat (map fst pages)).
        rewrite !app_assoc. now rewrite <- Hrest.
  - destruct Hc as (r & items & Hr & Hiter & _ & _ & -> & _).
    inversion Hr; subst r; clear Hr.
    cbn in Hiter. inversion Hiter; subst items; clear Hiter.
    fold (pages_of pages) in H.
    destruct (download_loop self max_logs (pages_of pages) (all_logs ++ recs)
                cursor' (pg + 1)) as [[tr' r']|] eqn:Hrest; [|discriminate].
    cbn [prepend] in H. inversion H; subst; clear H.
    destruct (IH _ _ _ _ _ Hrest) as [rest Hpre].
    exists rest. now rewrite app_assoc.
Qed.

(** X9: Whatever the cap (absent, zero, positive or negative) and whatever
    pages the API returns, the records [download_all_logs] returns are a
    prefix of the records delivered, in delivery order: none is reordered,
    repeated, changed or invented. *)
Theorem download_returns_prefix :
  forall max_logs pages tr logs,
    download_all_logs self max_logs (pages_of pages) = Some (tr, Ok logs) ->
    exists rest, List.concat (map fst pages) = logs ++ rest.
Proof.
  intros max_logs pages tr logs H. unfold download_all_logs in H.
  destruct (download_loop self max_logs (pages_of pages) [] VNone 1)
    as [[tr' r]|] eqn:Hrun; [|discriminate].
  cbn [prepend] in H. inversion H; subst; clear H.
  exact (download_loop_returns_prefix _ _ _ _ _ _ _ Hrun).
Qed.




End DriverPages.

Section DriverRequests.

Variable self : NextDNSLogDownloader.t.

Lemma page_request_has_shape :
  forall cursor, page_request_shape self (page_request self cursor).
Proof.
  intros cursor _. eexists. split; [reflexivity|]. unfold request_params.
  destruct (truthy cursor); cbn; split; try reflexivity; intuition.
Qed.

Lemma download_loop_requests :
  forall max_logs net all_logs cursor pg tr r,
    download_loop self max_logs net all_logs cursor pg = Some (tr, r) ->
    Forall (page_request_shape self) tr.
Proof.
  intros max_logs net. induction net as [|outcome net IH];
    intros all_logs cursor pg tr r H; [discriminate|].
  cbn [download_loop] in H.
  assert (Hprint : forall text end_, page_request_shape self (Print text end_))
    by (intros text end_ Hget; discriminate).
  assert (Hno : forall tr2, fetches tr2 = 0%nat -> Forall (page_request_shape self) tr2).
  { intros tr2 Hf. eapply Forall_impl; [|exact (no_fetch_no_get tr2 Hf)].
    intros e He Hget. congruence. }
  destruct (get_logs self 100 cursor outcome) as [tr1 r1] eqn:Hget.
  assert (H1 : Forall (page_request_shape self) tr1).
  { unfold get_logs in Hget. fold (page_request self cursor) in Hget.
    destruct outcome as [body|e]; [|destruct (is_RequestException e)];
      inversion Hget; subst; repeat constructor;
      try apply page_request_has_shape; apply Hprint. }
  destruct r1 as [response|e].
  - destruct (loop_body max_logs all_logs response) as [tr2 c] eqn:Hbody.
    destruct (loop_body_trace _ _ _ _ _ Hbody) as (Hf2 & _).
    assert (Hturn : Forall (page_request_shape self)
                      (Print ("Fetching page " ++ str_of_int pg ++ "...")%string " "
                         :: tr1 ++ tr2)).
    { constructor; [apply Hprint|]. apply Forall_app. split; [exact H1|].
      now apply Hno. }
    destruct c as [logs|logs cursor'|e].
    + inversion H; subst. exact Hturn.
    + destruct (download_loop self max_logs net logs cursor' (pg + 1))
        as [[tr' r']|] eqn:Hrest; [|discriminate].
      cbn [prepend] in H. inversion H; subst; clear H.
      change (?a :: (tr1 ++ tr2) ++ tr') with ((a :: tr1 ++ tr2) ++ tr').
      apply Forall_app. split; [exact Hturn|]. exact (IH _ _ _ _ _ Hrest).
    + inversion H; subst. exact Hturn.
  - inversion H; subst. constructor; [apply Hprint|exact H1].
Qed.

Lemma download_all_logs_requests :
  forall max_logs net tr r,
    download_all_logs self max_logs net = Some (tr, r) ->
    Forall (page_request_shape self) tr.
Proof.
  intros max_logs net tr r H. unfold download_all_logs in H.
  destruct (download_loop self max_logs net [] VNone 1) as [[tr' r']|] eqn:Hrun;
    [|discriminate].
  cbn [prepend] in H. inversion H; subst; clear H.
  constructor; [intro Hget; discriminate|].
  exact (download_loop_requests _ _ _ _ _ _ _ Hrun).
Qed.

(** X2: Every request of a download goes to the log URL of the profile, with
    the headers of the session, a timeout of 30 seconds and a page size of
    100; the only other parameter it can carry is the cursor.  The headers
    of the session [__init__] sets up are the four default headers of the
    library followed by [X-Api-Key] with the API key. *)
Theorem every_request_is_a_page_request :
  forall max_logs net tr r,
    download_all_logs self max_logs net = Some (tr, r) ->
    Forall (page_request_shape self) tr
    /\ forall lib key profile,
        session_headers (__init__ lib key profile)
        = [("User-Agent"%string, VStr (user_agent lib));
           ("Accept-Encoding"%string, VStr (accept_encoding lib));
           ("Accept"%string, VStr "*/*");
           ("Connection"%string, VStr "keep-alive");
           ("X-Api-Key"%string, VStr key)].
Proof.
  intros max_logs net tr r H. split; [|reflexivity].
  exact (download_all_logs_requests _ _ _ _ H).
Qed.

(** X1: [get_logs] never asks for more than 100 records: the page size sent is
    the smaller of [limit] and 100 (a limit below 1 is sent as it is), also
    when a cursor is sent along. *)
Theorem get_logs_limits_page_size :
  forall limit cursor net,
    exists url headers params rest,
      fst (get_logs self limit cursor net) = Get url headers params 30 :: rest
      /\ lookup params "limit" = Some (VInt (Z.min limit 100))
      /\ (Z.min limit 100 <= 100)%Z
      /\ ((limit <= 100)%Z -> lookup params "limit" = Some (VInt limit)).
Proof.
  intros limit cursor net.
  assert (Hlimit : lookup (request_params limit cursor) "limit"
                   = Some (VInt (Z.min limit 100)))
    by (unfold request_params; destruct (truthy cursor); reflexivity).
  unfold get_logs.
  destruct net as [body|e]; [|destruct (is_RequestException e)];
    cbn [fst]; eexists _, _, _, _; (split; [reflexivity|]);
    (split; [exact Hlimit|]); (split; [lia|]);
    intro Hle; rewrite Hlimit; now rewrite Z.min_l.
Qed.

(** X10: A negative cap is reached by the first page that has records: the
    download makes one request and returns that page without its last
    [-cap] records. *)
Theorem negative_cap_cuts_first_page :
  forall cap recs cursor rest,
    (cap < 0)%Z ->
    exists tr,
      download_all_logs self (Some cap) (Returns (page recs cursor) :: rest)
      = Some (tr, Ok (firstn (Z.to_nat (len recs + cap)) recs))
      /\ fetches tr = 1%nat.
Proof.
  intros cap recs cursor rest Hcap. unfold download_all_logs.
  destruct recs as [|r rs].
  - rewrite firstn_nil. eexists. split; reflexivity.
  - assert (Hreached : cap_reached (Some cap) ([] ++ r :: rs) = true).
    { unfold cap_reached. cbn [truthy].
      destruct (Z.eqb_spec cap 0); [lia|]. cbn [negb andb].
      rewrite Z.geb_leb. apply Z.leb_le. unfold len. lia. }
    destruct (loop_body_cap_reached cap [] (r :: rs) cursor
                ltac:(discriminate) Hreached) as [tr2 Hbody].
    rewrite (download_loop_break self _ _ _ _ _ _ _ _ Hbody).
    destruct (loop_body_trace _ _ _ _ _ Hbody) as (Hf & _).
    cbn [prepend app]. eexists. split.
    + unfold slice_to. destruct (Z.ltb_spec cap 0); [reflexivity|lia].
    + change (fetches (?a :: ?b :: ?c :: tr2)) with (S (fetches tr2)).
      now rewrite Hf.
Qed.

(** X11: A response object whose [data] is missing or false ([null], an empty
    list, an empty text, 0) ends the loop like an empty page: the buffer is
    returned as it stands. *)
Theorem response_without_data_ends_loop :
  forall max_logs (r : dict) rest all_logs cursor pg,
    truthy (get r "data" (VList [])) = false ->
    download_loop self max_logs (Returns (VDict r) :: rest) all_logs cursor pg
    = Some ([Print ("Fetching page " ++ str_of_int pg ++ "...")%string " ";
             page_request self cursor;
             print "No more logs."],
            Ok all_logs).
Proof.
  intros max_logs r rest all_logs cursor pg Hdata.
  cbn [download_loop get_logs]. unfold loop_body. now rewrite Hdata.
Qed.

(** X12: A response with records and no [meta] at all is a last page: its
    records are appended and the buffer is returned (the cap not being
    reached). *)
Theorem response_without_meta_ends_loop :
  forall max_logs (r : dict) (x : value) (xs : list value) rest all_logs cursor pg,
    lookup r "data" = Some (VList (x :: xs)) ->
    lookup r "meta" = None ->
    cap_reached max_logs (all_logs ++ x :: xs) = false ->
    returned (download_loop self max_logs (Returns (VDict r) :: rest)
                all_logs cursor pg)
    = Some (all_logs ++ x :: xs).
Proof.
  intros max_logs r x xs rest all_logs cursor pg Hdata Hmeta Hcap.
  cbn [download_loop get_logs]. unfold loop_body, get.
  rewrite Hdata, Hmeta. cbn [truthy negb iterate]. rewrite Hcap.
  reflexivity.
Qed.

(** X13: A response with records whose [meta] is there but is no object (a JSON
    [null], say) makes the loop fail on [meta.get]: the download raises an
    [AttributeError] and returns nothing, the records fetched so far
    included. *)
Theorem meta_must_be_an_object :
  forall max_logs (r : dict) (x : value) (xs : list value) (meta : value)
         rest all_logs cursor pg,
    lookup r "data" = Some (VList (x :: xs)) ->
    lookup r "meta" = Some meta ->
    (forall m, meta <> VDict m) ->
    cap_reached max_logs (all_logs ++ x :: xs) = false ->
    exists tr,
      download_loop self max_logs (Returns (VDict r) :: rest) all_logs cursor pg
      = Some (tr, Raised (AttributeError
                            ("'" ++ type_name meta
                                 ++ "' object has no attribute 'get'")%string)).
Proof.
  intros max_logs r x xs meta rest all_logs cursor pg Hdata Hmeta Hobj Hcap.
  cbn [download_loop get_logs]. unfold loop_body, get.
  rewrite Hdata, Hmeta. cbn [truthy negb iterate]. rewrite Hcap.
  destruct meta; try (eexists; reflexivity).
  exfalso. now apply (Hobj entries).
Qed.

End DriverRequests.

(* ================================================================== *)
(** ** The flattener: shape of the result *)
(* ================================================================== *)

Section FlattenerShape.

Lemma In_setitem :
  forall (d : dict) k v kv,
    In kv (setitem d k v) -> kv = (k, v) \/ In kv d.
Proof.
  induction d as [|[k' v'] d IH]; intros k v kv H; cbn [setitem] in H.
  - destruct H as [<-|[]]. now left.
  - destruct (String.eqb_spec k' k) as [->|Hne]; cbn [In] in *.
    + destruct H as [<-|H]; [now left|now right; right].
    + destruct H as [<-|H]; [now right; left|].
      destruct (IH _ _ _ H); [now left|now right; right].
Qed.

Lemma keys_setitem :
  forall (d : dict) k v k',
    In k' (keys (setitem d k v)) <-> k' = k \/ In k' (keys d).
Proof.
  induction d as [|[k0 v0] d IH]; intros k v k'; cbn [setitem].
  - cbn. intuition.
  - destruct (String.eqb_spec k0 k) as [->|Hne]; cbn [keys map fst In].
    + intuition.
    + fold (keys (setitem d k v)). rewrite IH. fold (keys d). intuition.
Qed.

Lemma NoDup_setitem :
  forall (d : dict) k v, NoDup (keys d) -> NoDup (keys (setitem d k v)).
Proof.
  induction d as [|[k0 v0] d IH]; intros k v H; cbn [setitem].
  - repeat constructor. intros [].
  - cbn [keys map fst] in H. inversion H as [|? ? Hnotin Hnd]; subst.
    destruct (String.eqb_spec k0 k) as [->|Hne]; cbn [keys map fst].
    + now constructor.
    + constructor; [|now apply IH].
      fold (keys (setitem d k v)). rewrite keys_setitem.
      intros [->|Hin]; [now apply Hne|now apply Hnotin].
Qed.

Lemma setitem_new :
  forall (d : dict) k v, ~ In k (keys d) -> setitem d k v = d ++ [(k, v)].
Proof.
  induction d as [|[k0 v0] d IH]; intros k v H; [reflexivity|].
  cbn [setitem]. cbn in H.
  destruct (String.eqb_spec k0 k) as [->|Hne]; [tauto|].
  cbn [app]. f_equal. apply IH. tauto.
Qed.

Lemma fold_setitem_spec :
  forall (items : list (string * value)) (acc : dict),
    (NoDup (keys acc) ->
     NoDup (keys (fold_left (fun d kv => setitem d (fst kv) (snd kv)) items acc)))
    /\ (forall kv,
           In kv (fold_left (fun d kv => setitem d (fst kv) (snd kv)) items acc) ->
           In kv acc \/ In kv items)
    /\ (NoDup (keys (acc ++ items)) ->
        fold_left (fun d kv => setitem d (fst kv) (snd kv)) items acc
        = acc ++ items).
Proof.
  induction items as [|[k v] items IH]; intro acc; cbn [fold_left fst snd].
  - repeat split; auto. intros _. now rewrite app_nil_r.
  - destruct (IH (setitem acc k v)) as (Hnd & Hin & Hid). repeat split.
    + intro H. now apply Hnd, NoDup_setitem.
    + intros kv H. destruct (Hin kv H) as [H'|H']; [|now right; right].
      destruct (In_setitem _ _ _ _ H') as [->|H'']; [right; now left|now left].
    + intro H.
      assert (Hnotin : ~ In k (keys acc)).
      { unfold keys in *. rewrite map_app in H. cbn [map fst] in H.
        apply NoDup_remove_2 in H. intro Hk. apply H.
        apply in_or_app. now left. }
      rewrite Hid; rewrite (setitem_new acc k v Hnotin), <- app_assoc;
        [reflexivity|exact H].
Qed.

Lemma of_items_spec :
  forall items : list (string * value),
    NoDup (keys (of_items items))
    /\ (forall kv, In kv (of_items items) -> In kv items)
    /\ (NoDup (keys items) -> of_items items = items).
Proof.
  intro items. unfold of_items.
  destruct (fold_setitem_spec items []) as (Hnd & Hin & Hid). repeat split.
  - apply Hnd. constructor.
  - intros kv H. destruct (Hin kv H) as [[]|H']. exact H'.
  - exact Hid.
Qed.

(** Every value of a flattened record is a scalar: nested mappings are
    dissolved into keys and lists into text, at every depth. *)
Lemma flatten_object_scalars :
  forall (v : value) (parent_key sep : string) (kv : string * value),
    In kv (flatten_object v parent_key sep) -> is_scalar (snd kv) = true.
Proof.
  intro v. induction v using value_nested_ind;
    intros parent_key sep kv Hin; try (now destruct Hin).
  cbn [flatten_object] in Hin.
  apply (proj1 (proj2 (of_items_spec _))) in Hin.
  apply in_flat_map in Hin. destruct Hin as ([k v] & Hentry & Hin).
  rewrite Forall_forall in H. specialize (H _ Hentry). cbn [snd] in H.
  destruct v; try (destruct Hin as [<-|[]]; reflexivity).
  exact (H _ _ _ Hin).
Qed.

Lemma flattened_values_scalar_aux :
  forall (d : dict) (parent_key sep k : string) (v : value),
    In (k, v) (_flatten_dict d parent_key sep) -> is_scalar v = true.
Proof.
  intros d parent_key sep k v H.
  exact (flatten_object_scalars (VDict d) parent_key sep (k, v) H).
Qed.

(** X15: The flattened record is flat: none of its values is a mapping or a
    list, whatever the nesting of the record. *)
Theorem flattened_values_are_scalars :
  forall (d : dict) (parent_key sep k : string) (v : value),
    In (k, v) (_flatten_dict d parent_key sep) -> is_scalar v = true.
Proof. exact flattened_values_scalar_aux. Qed.

Lemma flattened_keys_unique_aux :
  forall (d : dict) (parent_key sep : string),
    NoDup (keys (_flatten_dict d parent_key sep)).
Proof.
  intros d parent_key sep. unfold _flatten_dict. cbn [flatten_object].
  apply of_items_spec.
Qed.

(** X16: The flattened record has each key once.  Two paths of a record that
    are joined to the same key collide: a mapping [a] with the key [b] and a
    top-level key that is [a], the separator and [b] give one key, at the
    place of the earlier of the two and with the value of the later. *)
Theorem flattened_keys_collide :
  forall (a b sep : string) (v1 v2 : value),
    a <> ""%string -> is_scalar v1 = true -> is_scalar v2 = true ->
    _flatten_dict [(a, VDict [(b, v1)]); ((a ++ sep ++ b)%string, v2)] "" sep
    = [((a ++ sep ++ b)%string, v2)]
    /\ _flatten_dict [((a ++ sep ++ b)%string, v2); (a, VDict [(b, v1)])] "" sep
       = [((a ++ sep ++ b)%string, v1)]
    /\ (forall (d : dict) (parent_key : string),
           NoDup (keys (_flatten_dict d parent_key sep))).
Proof.
  intros a b sep v1 v2 Ha H1 H2.
  assert (Ht : truthy (VStr a) = true)
    by (cbn [truthy]; apply Bool.negb_true_iff; now apply String.eqb_neq).
  assert (Hnested : flatten_object (VDict [(b, v1)]) a sep
                    = [((a ++ sep ++ b)%string, v1)]).
  { cbn [flatten_object flat_map]. rewrite Ht.
    destruct v1; try discriminate; reflexivity. }
  assert (Hscalar : forall k,
             match v2 with
             | VDict _ => flatten_object v2 k sep
             | VList items =>
                 [(k, VStr (if truthy v2 then join ", " (map str items)
                            else ""%string))]
             | _ => [(k, v2)]
             end = [(k, v2)])
    by (intro k; destruct v2; try discriminate; reflexivity).
  unfold _flatten_dict.
  split; [|split].
  - change (flatten_object (VDict [(a, VDict [(b, v1)]); ((a ++ sep ++ b)%string, v2)])
                           "" sep)
      with (of_items (flatten_object (VDict [(b, v1)]) a sep
                        ++ match v2 with
                           | VDict _ => flatten_object v2 (a ++ sep ++ b)%string sep
                           | VList items =>
                               [((a ++ sep ++ b)%string,
                                 VStr (if truthy v2 then join ", " (map str items)
                                       else ""%string))]
                           | _ => [((a ++ sep ++ b)%string, v2)]
                           end ++ [])).
    rewrite Hnested, Hscalar. unfold of_items. cbn [app fold_left setitem fst snd].
    now rewrite String.eqb_refl.
  - change (flatten_object (VDict [((a ++ sep ++ b)%string, v2); (a, VDict [(b, v1)])])
                           "" sep)
      with (of_items (match v2 with
                      | VDict _ => flatten_object v2 (a ++ sep ++ b)%string sep
                      | VList items =>
                          [((a ++ sep ++ b)%string,
                            VStr (if truthy v2 then join ", " (map str items)
                                  else ""%string))]
                      | _ => [((a ++ sep ++ b)%string, v2)]
                      end ++ flatten_object (VDict [(b, v1)]) a sep ++ [])).
    rewrite Hnested, Hscalar. unfold of_items. cbn [app fold_left setitem fst snd].
    now rewrite String.eqb_refl.
  - intros d parent_key. apply flattened_keys_unique_aux.
Qed.

Lemma flatten_flat_items :
  forall (d : dict) (sep : string),
    Forall (fun kv => is_scalar (snd kv) = true) d ->
    flatten_object (VDict d) "" sep = of_items d.
Proof.
  intros d sep H. cbn [flatten_object]. f_equal.
  induction H as [|[k v] d Hv _ IH]; [reflexivity|].
  cbn [flat_map]. rewrite IH. cbn [snd] in Hv.
  destruct v; try reflexivity; discriminate.
Qed.

(** X17: A record that is flat already (scalar values, each key once) is left as
    it is, in its order. *)
Theorem flatten_keeps_flat_record :
  forall (d : dict) (sep : string),
    Forall (fun kv => is_scalar (snd kv) = true) d ->
    NoDup (keys d) ->
    _flatten_dict d "" sep = d.
Proof.
  intros d sep Hflat Hnd. unfold _flatten_dict.
  rewrite (flatten_flat_items d sep Hflat).
  now apply of_items_spec.
Qed.

(** X18: Flattening is idempotent: flattening a flattened record again changes
    nothing. *)
Theorem flatten_is_idempotent :
  forall (d : dict) (parent_key sep sep' : string),
    _flatten_dict (_flatten_dict d parent_key sep) "" sep'
    = _flatten_dict d parent_key sep.
Proof.
  intros d parent_key sep sep'.
  set (flat := _flatten_dict d parent_key sep).
  unfold _flatten_dict at 1.
  rewrite (flatten_flat_items flat sep').
  - apply of_items_spec. apply flattened_keys_unique_aux.
  - apply Forall_forall. intros [k v] Hin. cbn [snd].
    exact (flatten_object_scalars (VDict d) parent_key sep (k, v) Hin).
Qed.

End FlattenerShape.

(* ================================================================== *)
(** ** The CSV exporter on arbitrary lists *)
(* ================================================================== *)

Section CsvRuns.

Variable filename : string.

Lemma lookup_In :
  forall (d : dict) k v, lookup d k = Some v -> In (k, v) d.
Proof.
  induction d as [|[k' v'] d IH]; intros k v H; [discriminate|].
  cbn [lookup] in H. destruct (String.eqb_spec k' k) as [->|Hne].
  - inversion H; subst. now left.
  - right. now apply IH.
Qed.

(** The first loop of [save_to_csv] goes through exactly when every record
    is a mapping; otherwise it raises on the first record that is none. *)
Lemma collect_fieldnames_cases :
  forall logs fieldnames,
    (exists ds collected,
        logs = map VDict ds /\ collect_fieldnames fieldnames logs = Ok collected)
    \/ (exists v,
           In v logs /\ (forall d, v <> VDict d)
           /\ collect_fieldnames fieldnames logs = Raised (no_attribute v "items")).
Proof.
  induction logs as [|log logs IH]; intro fieldnames.
  - left. exists [], fieldnames. split; reflexivity.
  - cbn [collect_fieldnames]. destruct log as [| | | | | |d];
      try (right; eexists; split; [now left|]; split; [discriminate|reflexivity]).
    cbn [flatten_log].
    destruct (IH (set_update fieldnames (keys (_flatten_dict d "" "_"))))
      as [(ds & collected & -> & Hrun)|(v & Hin & Hv & Hrun)].
    + left. exists (d :: ds), collected. split; [reflexivity|exact Hrun].
    + right. exists v. split; [now right|]. split; assumption.
Qed.

(** What [save_to_csv] writes for records that are all mappings, by what
    the file system does: the header is the same in each case, and a file
    that fails after [n] writes is left with the first [n] lines. *)
Lemma save_to_csv_dicts :
  forall (d : dict) (ds : list dict),
  exists header,
    StronglySorted str_lt header
    /\ (forall k, In k header
                  <-> exists d', In d' (d :: ds)
                                 /\ In k (keys (_flatten_dict d' "" "_")))
    /\ forall fs,
        save_to_csv (map VDict (d :: ds)) filename fs
        = match fs with
          | Accepts =>
              (Open filename
                 :: map (WriteRow filename)
                      (table (fun d' => _flatten_dict d' "" "_") header (d :: ds))
                 ++ [print ("Saved " ++ str_of_int (len (d :: ds)) ++ " logs to "
                              ++ filename)%string],
               Ok tt)
          | OpenRaises e => ([], Raised e)
          | WriteRaises n e =>
              (Open filename
                 :: map (WriteRow filename)
                      (firstn n
                         (table (fun d' => _flatten_dict d' "" "_") header
                                (d :: ds))),
               Raised e)
          end.
Proof.
  intros d ds.
  destruct (collect_fieldnames_dicts (d :: ds) []) as (collected & Hrun & Hmem & Hnd).
  assert (Hheader : forall k, In k (sorted collected)
                              <-> exists d', In d' (d :: ds)
                                             /\ In k (keys (_flatten_dict d' "" "_"))).
  { intro k. rewrite In_sorted, Hmem. split; [|auto].
    intros [[]|H]. exact H. }
  assert (Hsub : forall d' k, In d' (d :: ds) ->
                              In k (keys (_flatten_dict d' "" "_")) ->
                              In k (sorted collected)).
  { intros d' k Hd' Hk. apply Hheader. exists d'. now split. }
  exists (sorted collected). split; [apply sorted_increasing, Hnd; constructor|].
  split; [exact Hheader|]. intro fs.
  unfold save_to_csv. cbn [map truthy negb]. cbn [map] in Hrun. rewrite Hrun.
  change (VDict d :: map VDict ds) with (map VDict (d :: ds)).
  unfold writeheader, writerow. rewrite header_row. unfold table.
  destruct fs as [|e|n e]; cbn [open].
  - cbn [write]. rewrite (write_rows_accepted filename _ _ Hsub). cbn [close].
    unfold len. rewrite length_map. cbn [app map]. now rewrite map_map.
  - reflexivity.
  - destruct n as [|n]; [reflexivity|]. cbn [write].
    rewrite (write_rows_budget filename _ _ n e Hsub).
    destruct (n <? List.length (d :: ds))%nat; reflexivity.
Qed.

(** The ways [save_to_csv] can go, whatever the file system does. *)
Lemma save_to_csv_cases :
  forall logs,
    (logs = []
     /\ forall fs, save_to_csv logs filename fs
                   = ([print "No logs to save to CSV"], Ok tt))
    \/ (exists (d : dict) (ds : list dict) header,
           logs = map VDict (d :: ds)
           /\ forall fs,
               save_to_csv logs filename fs
               = match fs with
                 | Accepts =>
                     (Open filename
                        :: map (WriteRow filename)
                             (table (fun d' => _flatten_dict d' "" "_") header
                                    (d :: ds))
                        ++ [print ("Saved " ++ str_of_int (len (d :: ds))
                                     ++ " logs to " ++ filename)%string],
                      Ok tt)
                 | OpenRaises e => ([], Raised e)
                 | WriteRaises n e =>
                     (Open filename
                        :: map (WriteRow filename)
                             (firstn n
                                (table (fun d' => _flatten_dict d' "" "_") header
                                       (d :: ds))),
                      Raised e)
                 end)
    \/ (exists v,
           In v logs /\ (forall d, v <> VDict d)
           /\ forall fs, save_to_csv logs filename fs
                         = ([], Raised (no_attribute v "items"))).
Proof.
  intros [|log logs]; [now left|right].
  destruct (collect_fieldnames_cases (log :: logs) [])
    as [(ds & collected & Hds & Hrun)|(v & Hin & Hv & Hrun)].
  - left. destruct ds as [|d ds]; [discriminate|].
    destruct (save_to_csv_dicts d ds) as (header & _ & _ & Hsave).
    exists d, ds, header. split; [exact Hds|]. rewrite Hds. exact Hsave.
  - right. exists v. split; [exact Hin|]. split; [exact Hv|]. intro fs.
    unfold save_to_csv. cbn [truthy negb]. now rewrite Hrun.
Qed.


(** C9, the code on a record with a mapping under the empty key: the header
    of the file is [b] where the flattened key of the specification is
    [_b]; next to a top-level key [b] the header has the one column [b] and
    the row the top-level value, where the specification has the two
    columns [_b] and [b] and both values. *)
Theorem save_to_csv_under_empty_key :
  save_to_csv [VDict under_empty_key] "out.csv" Accepts
  = ([Open "out.csv";
      WriteRow "out.csv" [VStr "b"];
      WriteRow "out.csv" [VInt 1];
      print "Saved 1 logs to out.csv"],
     Ok tt)
  /\ keys (flattened under_empty_key) = ["_b"]
  /\ csv_lines ["_b"] [under_empty_key] = [[VStr "_b"]; [VInt 1]]
  /\ lines_written (fst (save_to_csv [VDict under_empty_key] "out.csv" Accepts))
     <> csv_lines ["_b"] [under_empty_key]
  /\ save_to_csv [VDict under_empty_key_and_b] "out.csv" Accepts
     = ([Open "out.csv";
         WriteRow "out.csv" [VStr "b"];
         WriteRow "out.csv" [VInt 2];
         print "Saved 1 logs to out.csv"],
        Ok tt)
  /\ keys (flattened under_empty_key_and_b) = ["_b"; "b"]
  /\ csv_lines ["_b"; "b"] [under_empty_key_and_b]
     = [[VStr "_b"; VStr "b"]; [VInt 1; VInt 2]].
Proof.
  repeat split; try reflexivity. discriminate.
Qed.



(** X20: A CSV export of at least one record that returns has written a table
    to a file that took every write: the header, then one row per record,
    each row as wide as the header and every cell a scalar (no nested
    mapping or list reaches the file). *)
Theorem csv_file_is_a_table_of_scalars :
  forall logs fs tr,
    logs <> [] ->
    save_to_csv logs filename fs = (tr, Ok tt) ->
    fs = Accepts
    /\ exists header rows,
        tr = Open filename
               :: WriteRow filename (map VStr header)
               :: map (WriteRow filename) rows
               ++ [print ("Saved " ++ str_of_int (len logs) ++ " logs to "
                            ++ filename)%string]
        /\ List.length rows = List.length logs
        /\ Forall (fun row => List.length row = List.length header) rows
        /\ Forall (Forall (fun cell => is_scalar cell = true)) rows.
Proof.
  intros logs fs tr Hne H.
  destruct (save_to_csv_cases logs)
    as [[-> _]|[(d & ds & header & Hlogs & Hrun)|(v & Hin & Hv & Hrun)]];
    [contradiction| |rewrite Hrun in H; discriminate].
  rewrite Hrun in H. destruct fs as [|e|n e]; try discriminate.
  split; [reflexivity|]. injection H as <-.
  exists header,
    (map (fun d0 => map (fun key => get (_flatten_dict d0 "" "_") key (VStr ""))
                        header) (d :: ds)).
  split; [|split; [|split]].
  - rewrite Hlogs. unfold len, table. now rewrite length_map.
  - now rewrite Hlogs, !length_map.
  - apply Forall_forall. intros row Hrow.
    apply in_map_iff in Hrow. destruct Hrow as (d' & <- & _).
    apply length_map.
  - apply Forall_forall. intros row Hrow.
    apply in_map_iff in Hrow. destruct Hrow as (d' & <- & _).
    apply Forall_forall. intros cell Hcell.
    apply in_map_iff in Hcell. destruct Hcell as (key & <- & _).
    unfold get.
    destruct (lookup (_flatten_dict d' "" "_") key) as [v|] eqn:Hl;
      [|reflexivity].
    exact (flattened_values_scalar_aux _ _ _ _ _ (lookup_In _ _ _ Hl)).
Qed.

End CsvRuns.

(* ================================================================== *)
(** ** main: exit status and files *)
(* ================================================================== *)

Section MainRuns.

Variable lib : requests_library.
Variable environ : list (string * string).

(** [main] past [parse_args] and the two credential checks. *)
Lemma main_with_credentials :
  forall cl net disk,
    given (args_api_key (namespace_of environ cl)) = true ->
    given (args_profile (namespace_of environ cl)) = true ->
    main lib environ (Options cl) net disk
    = let args := namespace_of environ cl in
      match download_all_logs (downloader_of lib args) (args_max_logs args) net with
      | None => None
      | Some (tr, Raised e) => Some (handle tr e)
      | Some (tr, Ok logs) =>
          if negb (truthy (VList logs)) then
            Some (tr ++ [print "No logs downloaded."], 0%Z)
          else
            let (tr_json, r_json) :=
              if negb (args_csv_only args)
              then save_to_json logs (args_output args ++ ".json")%string
                                (disk (args_output args ++ ".json")%string)
              else ([], Ok tt) in
            match r_json with
            | Raised e => Some (handle (tr ++ tr_json) e)
            | Ok _ =>
                let (tr_csv, r_csv) :=
                  if negb (args_json_only args)
                  then save_to_csv logs (args_output args ++ ".csv")%string
                                   (disk (args_output args ++ ".csv")%string)
                  else ([], Ok tt) in
                match r_csv with
                | Raised e => Some (handle (tr ++ tr_json ++ tr_csv) e)
                | Ok _ =>
                    Some (tr ++ tr_json ++ tr_csv
                             ++ [print (nl ++ "Download complete! Total logs: "
                                           ++ str_of_int (len logs))%string],
                          0%Z)
                end
            end
      end.
Proof.
  intros cl net disk Hkey Hprofile. unfold main. cbn [parse_args].
  rewrite Hkey, Hprofile. reflexivity.
Qed.

Lemma handle_status :
  forall tr e, snd (handle tr e) = 1%Z
               /\ files_written (fst (handle tr e)) = files_written tr.
Proof.
  intros tr e. destruct e; cbn [handle fst snd];
    rewrite files_written_app, app_nil_r; split; reflexivity.
Qed.

(** The [except] clauses add one message to the trace and set status 1. *)
Lemma handle_trace :
  forall tr e, exists text, handle tr e = (tr ++ [print text], 1%Z).
Proof.
  intros tr e. destruct e; cbn [handle]; eexists; reflexivity.
Qed.

Lemma exit_status_credentials :
  forall cl net disk tr status,
    main lib environ (Options cl) net disk = Some (tr, status) ->
    status <> 2%Z ->
    given (args_api_key (namespace_of environ cl)) = true
    /\ given (args_profile (namespace_of environ cl)) = true.
Proof.
  intros cl net disk tr status H Hs. unfold main in H. cbn [parse_args] in H.
  destruct (given (args_api_key (namespace_of environ cl))); cbn [negb] in H;
    [|inversion H; subst; contradiction].
  destruct (given (args_profile (namespace_of environ cl))); cbn [negb] in H;
    [|inversion H; subst; contradiction].
  split; reflexivity.
Qed.

(** X22: When the very first request fails (a rejected API key, a timeout, no
    network), the run is not reported as a failure: [main] prints the error
    and "No logs downloaded.", writes no file and ends with status 0. *)
Theorem failed_first_request_exits_0 :
  forall cl kind msg rest disk,
    given (args_api_key (namespace_of environ cl)) = true ->
    given (args_profile (namespace_of environ cl)) = true ->
    exists tr,
      main lib environ (Options cl) (Raises (RequestException kind msg) :: rest)
           disk
      = Some (tr, 0%Z)
      /\ files_written tr = []
      /\ fetches tr = 1%nat
      /\ In (print ("Error fetching logs: " ++ msg)%string) tr
      /\ In (print "No logs downloaded.") tr.
Proof.
  intros cl kind msg rest disk Hkey Hprofile.
  rewrite (main_with_credentials _ _ _ Hkey Hprofile).
  eexists. split; [reflexivity|]. split; [reflexivity|].
  split; [reflexivity|]. cbn. intuition.
Qed.

Lemma exit_status_of_main_aux :
  forall cl net disk tr status,
    given (args_api_key (namespace_of environ cl)) = true ->
    given (args_profile (namespace_of environ cl)) = true ->
    main lib environ (Options cl) net disk = Some (tr, status) ->
    status = 0%Z \/ status = 1%Z.
Proof.
  intros cl net disk tr status Hkey Hprofile H.
  rewrite (main_with_credentials _ _ _ Hkey Hprofile) in H. cbv zeta in H.
  assert (Hh : forall t e tr' s, handle t e = (tr', s) -> s = 1%Z).
  { intros t e tr' s E. pose proof (proj1 (handle_status t e)) as Hs.
    now rewrite E in Hs. }
  repeat match type of H with
         | context [match ?x with _ => _ end] => destruct x eqn:?
         end;
    inversion H; subst; auto; right; eapply Hh; eassumption.
Qed.

(** X21: The exit status of [main] is 2 exactly when [argparse] rejects the
    command line or a credential is missing or empty, and then nothing was
    requested or written; a request for help ends the process with status
    0 after the help text alone; otherwise the status is 0 or 1. *)
Theorem exit_status_of_main :
  forall argv net disk tr status,
    main lib environ argv net disk = Some (tr, status) ->
    match argv with
    | HelpOption => status = 0%Z /\ tr = [PrintHelp]
    | Invalid message => status = 2%Z /\ tr = [Usage message]
    | Options cl =>
        if given (args_api_key (namespace_of environ cl))
           && given (args_profile (namespace_of environ cl))
        then status = 0%Z \/ status = 1%Z
        else status = 2%Z /\ fetches tr = 0%nat /\ files_written tr = []
    end.
Proof.
  intros [cl| |message] net disk tr status H;
    [|injection H as <- <-; split; reflexivity..].
  destruct (given (args_api_key (namespace_of environ cl))) eqn:Hkey;
    [destruct (given (args_profile (namespace_of environ cl))) eqn:Hprofile|];
    cbn [andb].
  - exact (exit_status_of_main_aux _ _ _ _ _ Hkey Hprofile H).
  - unfold main in H. cbn [parse_args] in H.
    rewrite Hkey, Hprofile in H. cbn [negb] in H.
    inversion H; subst. repeat split.
  - unfold main in H. cbn [parse_args] in H. rewrite Hkey in H. cbn [negb] in H.
    inversion H; subst. repeat split.
Qed.

(** X23: When the download raises (an interrupt, a response that is not of the
    expected shape), everything fetched so far is dropped: [main] writes no
    file and ends with status 1. *)
Theorem failed_download_writes_nothing :
  forall cl net disk tr0 e,
    given (args_api_key (namespace_of environ cl)) = true ->
    given (args_profile (namespace_of environ cl)) = true ->
    download_all_logs (downloader_of lib (namespace_of environ cl))
                      (args_max_logs (namespace_of environ cl)) net
    = Some (tr0, Raised e) ->
    exists tr,
      main lib environ (Options cl) net disk = Some (tr, 1%Z)
      /\ files_written tr = []
      /\ fetches tr = fetches tr0.
Proof.
  intros cl net disk tr0 e Hkey Hprofile Hrun.
  rewrite (main_with_credentials _ _ _ Hkey Hprofile). cbv zeta. rewrite Hrun.
  pose proof (download_all_logs_writes_nothing _ _ _ _ _ Hrun) as Hw.
  destruct e; cbn [handle]; eexists; (split; [reflexivity|]);
    rewrite files_written_app, fetches_app, Hw; split; cbn; lia || reflexivity.
Qed.

End MainRuns.

Section MainFiles.

Variable lib : requests_library.
Variable environ : list (string * string).

Lemma some_pair :
  forall (A B : Type) (a c : A) (b d : B),
    Some (a, b) = Some (c, d) -> a = c /\ b = d.
Proof. intros A B a c b d H. injection H as -> ->. now split. Qed.



(** What [save_to_json] does, by what the file system does. *)
Lemma save_to_json_trace :
  forall logs filename fs tr r,
    save_to_json logs filename fs = (tr, r) ->
    Forall (fun e => is_get e = false) tr
    /\ (forall f l, In (Dump f l) tr -> f = filename /\ l = logs /\ fs = Accepts)
    /\ (r = Ok tt -> fs = Accepts /\ files_written tr = [filename]).
Proof.
  intros logs filename fs tr r H. unfold save_to_json in H.
  destruct fs as [|e|n e]; cbn [open app] in H; injection H as <- <-.
  - split; [repeat constructor|]. split; [|now split].
    intros f l [Hin|[Hin|[Hin|[]]]]; try discriminate.
    injection Hin as <- <-. now repeat split.
  - split; [constructor|]. split; [intros f l []|discriminate].
  - split; [repeat constructor|]. split; [|discriminate].
    intros f l [Hin|[]]. discriminate.
Qed.

(** The lines of a CSV file are neither requests nor dumps, and open no
    file. *)
Lemma rows_trace :
  forall filename (lines : list (list value)),
    Forall (fun e => is_get e = false) (map (WriteRow filename) lines)
    /\ files_written (map (WriteRow filename) lines) = []
    /\ (forall f l, ~ In (Dump f l) (map (WriteRow filename) lines)).
Proof.
  intros filename lines. induction lines as [|line lines (Hg & Hw & Hd)].
  - split; [constructor|]. split; [reflexivity|]. intros f l [].
  - split; [now constructor|]. split; [exact Hw|].
    intros f l [Hin|Hin]; [discriminate|]. exact (Hd f l Hin).
Qed.

(** What [save_to_csv] does, by what the file system does. *)
Lemma save_to_csv_trace :
  forall logs filename fs tr r,
    save_to_csv logs filename fs = (tr, r) ->
    Forall (fun e => is_get e = false) tr
    /\ (forall f l, ~ In (Dump f l) tr)
    /\ (logs <> [] -> r = Ok tt -> fs = Accepts /\ files_written tr = [filename]).
Proof.
  intros logs filename fs tr r H.
  destruct (save_to_csv_cases filename logs)
    as [[-> Hrun]|[(d & ds & header & _ & Hrun)|(v & _ & _ & Hrun)]];
    rewrite Hrun in H.
  - injection H as <- <-. split; [repeat constructor|].
    split; [|contradiction]. intros f l [Hin|[]]. discriminate.
  - destruct fs as [|e|n e]; apply pair_equal_spec in H; destruct H as [<- <-].
    + destruct (rows_trace filename
                  (table (fun d' => _flatten_dict d' "" "_") header (d :: ds)))
        as (Hg & Hw & Hd).
      split; [|split].
      * constructor; [reflexivity|]. apply Forall_app.
        split; [exact Hg|repeat constructor].
      * intros f l [Hin|Hin]; [discriminate|]. apply in_app_or in Hin.
        destruct Hin as [Hin|[Hin|[]]]; [exact (Hd f l Hin)|discriminate].
      * intros _ _. split; [reflexivity|].
        change (files_written (Open filename :: ?t)) with (filename :: files_written t).
        now rewrite files_written_app, Hw.
    + split; [constructor|]. split; [intros f l []|discriminate].
    + destruct (rows_trace filename
                  (firstn n (table (fun d' => _flatten_dict d' "" "_") header
                                   (d :: ds))))
        as (Hg & Hw & Hd).
      split; [now constructor|]. split; [|discriminate].
      intros f l [Hin|Hin]; [discriminate|]. exact (Hd f l Hin).
  - injection H as <- <-. split; [constructor|].
    split; [intros f l []|discriminate].
Qed.

(** The trace of [main] is the trace of the download followed by what the
    exporters and the final messages add.  That part holds no request; it
    holds a JSON dump only if the download returned records, [--csv-only]
    is off and the file system took the file, which is then the output
    prefix with [.json] and holds the records returned; and on a run that
    ends with status 0 after records were downloaded it opens exactly the
    files the flags ask for. *)
Lemma main_trace_split :
  forall cl net disk tr status,
    given (args_api_key (namespace_of environ cl)) = true ->
    given (args_profile (namespace_of environ cl)) = true ->
    main lib environ (Options cl) net disk = Some (tr, status) ->
    exists tr0 r0 rest,
      download_all_logs (downloader_of lib (namespace_of environ cl))
                        (args_max_logs (namespace_of environ cl)) net
      = Some (tr0, r0)
      /\ tr = tr0 ++ rest
      /\ Forall (fun e => is_get e = false) rest
      /\ (forall f l,
             In (Dump f l) rest ->
             f = (args_output (namespace_of environ cl) ++ ".json")%string
             /\ args_csv_only (namespace_of environ cl) = false
             /\ disk f = Accepts
             /\ l <> [] /\ r0 = Ok l)
      /\ (status = 0%Z ->
          forall logs,
            r0 = Ok logs -> logs <> [] ->
            files_written rest = exported_files (namespace_of environ cl)
            /\ forall f, In f (exported_files (namespace_of environ cl)) ->
                         disk f = Accepts).
Proof.
  intros cl net disk tr status Hkey Hprofile H.
  rewrite (main_with_credentials lib environ _ _ _ Hkey Hprofile) in H.
  cbv zeta in H.
  destruct (download_all_logs _ _ net) as [[tr0 r0]|] eqn:Hrun; [|discriminate].
  exists tr0, r0.
  destruct r0 as [logs|e].
  - destruct logs as [|x xs]; cbn [truthy negb] in H.
    + apply some_pair in H. destruct H as [<- <-].
      eexists. split; [reflexivity|]. split; [reflexivity|].
      split; [repeat constructor|]. split.
      * intros f l [Hin|[]]. discriminate.
      * intros _ logs Hlogs Hne. injection Hlogs as <-. contradiction.
    + match type of H with
      | context [let (_, _) := ?j in _] =>
          destruct j as [tr_json r_json] eqn:HJ
      end.
      assert (Hjson :
                Forall (fun e => is_get e = false) tr_json
                /\ (forall f l,
                       In (Dump f l) tr_json ->
                       f = (args_output (namespace_of environ cl) ++ ".json")%string
                       /\ args_csv_only (namespace_of environ cl) = false
                       /\ disk f = Accepts /\ l = x :: xs)
                /\ (r_json = Ok tt ->
                    files_written tr_json
                    = (if args_csv_only (namespace_of environ cl) then []
                       else [(args_output (namespace_of environ cl) ++ ".json")%string])
                    /\ (args_csv_only (namespace_of environ cl) = false ->
                        disk (args_output (namespace_of environ cl) ++ ".json")%string
                        = Accepts))).
      { destruct (args_csv_only (namespace_of environ cl)); cbn [negb] in HJ.
        - apply pair_equal_spec in HJ. destruct HJ as [<- <-].
          split; [constructor|]. split; [intros f l []|].
          intros _. split; [reflexivity|discriminate].
        - destruct (save_to_json_trace _ _ _ _ _ HJ) as (Hg & Hd & Hw).
          split; [exact Hg|].
          split; [|intro Hr; destruct (Hw Hr) as [Hacc Hf]; now split].
          intros f l Hin. destruct (Hd f l Hin) as (-> & -> & Hacc).
          now repeat split. }
      destruct Hjson as (Hjson_get & Hjson_dump & Hjson_files).
      destruct r_json as [[]|e].
      * match type of H with
        | context [let (_, _) := ?c in _] =>
            destruct c as [tr_csv r_csv] eqn:HC
        end.
        assert (Hcsv :
                  Forall (fun e => is_get e = false) tr_csv
                  /\ (forall f l, ~ In (Dump f l) tr_csv)
                  /\ (r_csv = Ok tt ->
                      files_written tr_csv
                      = (if args_json_only (namespace_of environ cl) then []
                         else [(args_output (namespace_of environ cl) ++ ".csv")%string])
                      /\ (args_json_only (namespace_of environ cl) = false ->
                          disk (args_output (namespace_of environ cl) ++ ".csv")%string
                          = Accepts))).
        { destruct (args_json_only (namespace_of environ cl)); cbn [negb] in HC.
          - apply pair_equal_spec in HC. destruct HC as [<- <-].
            split; [constructor|]. split; [intros f l []|].
            intros _. split; [reflexivity|discriminate].
          - destruct (save_to_csv_trace _ _ _ _ _ HC) as (Hg & Hd & Hw).
            split; [exact Hg|]. split; [exact Hd|].
            intro Hr. destruct (Hw ltac:(discriminate) Hr) as [Hacc Hf].
            now split. }
        destruct Hcsv as (Hcsv_get & Hcsv_dump & Hcsv_files).
        assert (Hdump : forall (last : event) f l,
                   (forall f' l', last <> Dump f' l') ->
                   In (Dump f l) (tr_json ++ tr_csv ++ [last]) ->
                   f = (args_output (namespace_of environ cl) ++ ".json")%string
                   /\ args_csv_only (namespace_of environ cl) = false
                   /\ disk f = Accepts /\ l <> [] /\ Ok (x :: xs) = Ok l).
        { intros last f l Hlast Hin. apply in_app_or in Hin.
          destruct Hin as [Hin|Hin].
          - destruct (Hjson_dump f l Hin) as (-> & Hc & Hacc & ->).
            repeat split; [exact Hc|exact Hacc|discriminate].
          - apply in_app_or in Hin. destruct Hin as [Hin|[Hin|[]]].
            + now apply Hcsv_dump in Hin.
            + exfalso. exact (Hlast f l Hin). }
        assert (Hget : forall last : event,
                   is_get last = false ->
                   Forall (fun e => is_get e = false) (tr_json ++ tr_csv ++ [last])).
        { intros last Hlast. apply Forall_app. split; [exact Hjson_get|].
          apply Forall_app. split; [exact Hcsv_get|]. now repeat constructor. }
        destruct r_csv as [[]|e].
        -- apply some_pair in H. destruct H as [<- <-].
           eexists. split; [reflexivity|]. split; [reflexivity|].
           split; [now apply Hget|]. split.
           ++ intros f l. apply Hdump. discriminate.
           ++ intros _ logs _ _.
              destruct (Hjson_files eq_refl) as [Hfj Haj].
              destruct (Hcsv_files eq_refl) as [Hfc Hac].
              rewrite !files_written_app, Hfj, Hfc.
              unfold exported_files. cbv zeta. split; [now rewrite app_nil_r|].
              intros f Hf. apply in_app_or in Hf.
              destruct (args_csv_only (namespace_of environ cl)),
                       (args_json_only (namespace_of environ cl));
                destruct Hf as [Hf|Hf]; try destruct Hf as [<-|[]];
                try destruct Hf; auto.
        -- destruct (handle_trace (tr0 ++ tr_json ++ tr_csv) e) as [text Hh].
           rewrite Hh in H. apply some_pair in H.
           destruct H as [<- <-].
           exists (tr_json ++ tr_csv ++ [print text]).
           split; [reflexivity|]. split; [now rewrite <- !app_assoc|].
           split; [now apply Hget|]. split; [|discriminate].
           intros f l. apply Hdump. discriminate.
      * destruct (handle_trace (tr0 ++ tr_json) e) as [text Hh].
        rewrite Hh in H. apply some_pair in H.
        destruct H as [<- <-].
        exists (tr_json ++ [print text]).
        split; [reflexivity|]. split; [now rewrite <- !app_assoc|].
        split; [|split; [|discriminate]].
        -- apply Forall_app. split; [exact Hjson_get|now repeat constructor].
        -- intros f l Hin. apply in_app_or in Hin.
           destruct Hin as [Hin|[Hin|[]]]; [|discriminate].
           destruct (Hjson_dump f l Hin) as (-> & Hc & Hacc & ->).
           repeat split; [exact Hc|exact Hacc|discriminate].
  - destruct (handle_trace tr0 e) as [text Hh].
    rewrite Hh in H. apply some_pair in H. destruct H as [<- <-].
    eexists. split; [reflexivity|]. split; [reflexivity|].
    split; [repeat constructor|]. split; [|discriminate].
    intros f l [Hin|[]]. discriminate.
Qed.

(** X24: A run that downloaded records and ended with status 0 wrote exactly
    the files the flags ask for, the JSON file before the CSV file, named
    after the output prefix. *)
Theorem successful_run_writes_the_flagged_files :
  forall cl net disk tr logs,
    main lib environ (Options cl) net disk = Some (tr, 0%Z) ->
    returned (download_all_logs (downloader_of lib (namespace_of environ cl))
                (args_max_logs (namespace_of environ cl)) net) = Some logs ->
    logs <> [] ->
    files_written tr = exported_files (namespace_of environ cl).
Proof.
  intros cl net disk tr logs H Hret Hne.
  destruct (exit_status_credentials lib environ cl net disk tr 0%Z H)
    as [Hkey Hprofile]; [lia|].
  destruct (main_trace_split _ _ _ _ _ Hkey Hprofile H)
    as (tr0 & r0 & rest & Hrun & -> & _ & _ & Hfiles).
  rewrite Hrun in Hret. destruct r0 as [logs'|e]; [|discriminate].
  injection Hret as ->.
  rewrite files_written_app, (download_all_logs_writes_nothing _ _ _ _ _ Hrun).
  exact (proj1 (Hfiles eq_refl logs eq_refl Hne)).
Qed.


(** X26: The credentials reach the API as given: every request of [main] goes
    to the log URL of the profile given (by flag, or else by environment)
    and carries the headers of the session, which are the four default
    headers of the library followed by [X-Api-Key] with the API key given. *)
Theorem main_requests_use_the_credentials :
  forall cl net disk tr status key profile,
    main lib environ (Options cl) net disk = Some (tr, status) ->
    or_else (opt_api_key cl) (environ_get environ "NEXTDNS_API_KEY") = Some key ->
    or_else (opt_profile cl) (environ_get environ "NEXTDNS_PROFILE_ID")
    = Some profile ->
    Forall (page_request_shape (__init__ lib key profile)) tr
    /\ profile_id (__init__ lib key profile) = profile
    /\ session_headers (__init__ lib key profile)
       = default_headers lib ++ [("X-Api-Key"%string, VStr key)].
Proof.
  intros cl net disk tr status key profile H Hk Hp.
  split; [|split; reflexivity].
  assert (Hquiet : forall l, Forall (fun e => is_get e = false) l ->
                             Forall (page_request_shape (__init__ lib key profile)) l).
  { intros l Hl. eapply Forall_impl; [|exact Hl].
    intros e He Hget. congruence. }
  destruct (given (args_api_key (namespace_of environ cl))) eqn:Hkey;
    [destruct (given (args_profile (namespace_of environ cl))) eqn:Hprofile|].
  - destruct (main_trace_split _ _ _ _ _ Hkey Hprofile H)
      as (tr0 & r0 & rest & Hrun & -> & Hrest & _).
    apply Forall_app. split; [|now apply Hquiet].
    unfold downloader_of in Hrun.
    cbn [namespace_of args_api_key args_profile args_max_logs] in Hrun.
    rewrite Hk, Hp in Hrun. cbn [or_default] in Hrun.
    exact (download_all_logs_requests _ _ _ _ _ Hrun).
  - unfold main in H. cbn [parse_args] in H.
    rewrite Hkey, Hprofile in H. cbn [negb] in H.
    injection H as <- <-. apply Hquiet. repeat constructor.
  - unfold main in H. cbn [parse_args] in H. rewrite Hkey in H. cbn [negb] in H.
    injection H as <- <-. apply Hquiet. repeat constructor.
Qed.

(** A run of [main] ends whenever its download does. *)
Lemma main_ends :
  forall cl net disk tr0 r0,
    given (args_api_key (namespace_of environ cl)) = true ->
    given (args_profile (namespace_of environ cl)) = true ->
    download_all_logs (downloader_of lib (namespace_of environ cl))
                      (args_max_logs (namespace_of environ cl)) net
    = Some (tr0, r0) ->
    exists tr status, main lib environ (Options cl) net disk = Some (tr, status).
Proof.
  intros cl net disk tr0 r0 Hkey Hprofile Hrun.
  rewrite (main_with_credentials lib environ _ _ _ Hkey Hprofile). cbv zeta.
  rewrite Hrun.
  destruct r0 as [logs|e];
    [|destruct (handle_trace tr0 e) as [text ->]; eauto].
  destruct (negb (truthy (VList logs))); [eauto|].
  match goal with
  | |- context [let (_, _) := ?j in _] => destruct j as [tr_json [[]|e]]
  end.
  - match goal with
    | |- context [let (_, _) := ?c in _] => destruct c as [tr_csv [[]|e]]
    end; [eauto|].
    destruct (handle_trace (tr0 ++ tr_json ++ tr_csv) e) as [text ->]. eauto.
  - destruct (handle_trace (tr0 ++ tr_json) e) as [text ->]. eauto.
Qed.

(** X28: A file that the run has to write and that the file system does not
    take whole makes [main] end with status 1: a run with both credentials
    that downloaded records and finds one of the files the flags ask for
    refused ends, with status 1. *)
Theorem refused_file_exits_1 :
  forall cl net disk logs f,
    given (args_api_key (namespace_of environ cl)) = true ->
    given (args_profile (namespace_of environ cl)) = true ->
    returned (download_all_logs (downloader_of lib (namespace_of environ cl))
                (args_max_logs (namespace_of environ cl)) net) = Some logs ->
    logs <> [] ->
    In f (exported_files (namespace_of environ cl)) ->
    disk f <> Accepts ->
    exists tr, main lib environ (Options cl) net disk = Some (tr, 1%Z).
Proof.
  intros cl net disk logs f Hkey Hprofile Hret Hne Hf Hdisk.
  destruct (download_all_logs _ _ net) as [[tr0 r0]|] eqn:Hrun; [|discriminate].
  destruct (main_ends cl net disk tr0 r0 Hkey Hprofile Hrun) as (tr & status & H).
  exists tr. rewrite H. f_equal. f_equal.
  destruct (exit_status_of_main_aux lib environ _ _ _ _ _ Hkey Hprofile H)
    as [->|Hs]; [|exact Hs].
  destruct (main_trace_split _ _ _ _ _ Hkey Hprofile H)
    as (tr0' & r0' & rest & Hrun' & _ & _ & _ & Hfiles).
  rewrite Hrun in Hrun'. injection Hrun' as <- <-.
  destruct r0 as [logs'|e]; [|discriminate].
  injection Hret as ->.
  destruct (Hfiles eq_refl logs eq_refl Hne) as [_ Hacc].
  exfalso. exact (Hdisk (Hacc f Hf)).
Qed.

End MainFiles.

(* ================================================================== *)
(** ** The theorems above at sample inputs *)
(* ================================================================== *)

Lemma download_never_exceeds_cap_witness :
  (1 <= 3)%Z
  /\ download_all_logs sample_downloader (Some 3%Z) three_pages_then_empty
     = Some (trace_of (download_all_logs sample_downloader (Some 3%Z)
                         three_pages_then_empty),
             Ok [rec_ 1; rec_ 2; rec_ 3])
  /\ (len [rec_ 1; rec_ 2; rec_ 3] <= 3)%Z.
Proof.
  split; [lia|]. split; [reflexivity|].
  apply (download_never_exceeds_cap sample_downloader 3%Z three_pages_then_empty
           (trace_of (download_all_logs sample_downloader (Some 3%Z)
                        three_pages_then_empty)));
    [lia|reflexivity].
Defined.

Lemma download_ends_within_cap_requests_witness :
  (1 <= 3)%Z
  /\ (Z.to_nat 3 <= List.length three_pages_then_empty)%nat
  /\ exists tr r,
      download_all_logs sample_downloader (Some 3%Z) three_pages_then_empty
      = Some (tr, r)
      /\ (fetches tr <= Z.to_nat 3)%nat.
Proof.
  split; [lia|]. split; [cbn; lia|].
  apply (download_ends_within_cap_requests sample_downloader 3%Z
           three_pages_then_empty); [lia|cbn; lia].
Defined.

Lemma download_without_cap_keeps_asking_witness :
  well_formed [([rec_ 1; rec_ 2], "c1"%string); ([rec_ 3], "c2"%string)]
  /\ download_all_logs sample_downloader None
       (map (fun p => Returns (page (fst p) (Some (snd p))))
            [([rec_ 1; rec_ 2], "c1"%string); ([rec_ 3], "c2"%string)])
     = None.
Proof.
  assert (Hwf : well_formed [([rec_ 1; rec_ 2], "c1"%string); ([rec_ 3], "c2"%string)])
    by (repeat constructor; discriminate).
  split; [exact Hwf|].
  exact (download_without_cap_keeps_asking sample_downloader _ Hwf).
Defined.

Lemma download_returns_prefix_witness :
  download_all_logs sample_downloader (Some (-1)%Z)
    (pages_of [([rec_ 1; rec_ 2; rec_ 3], Some "c1"%string); ([rec_ 4], None)])
  = Some (trace_of (download_all_logs sample_downloader (Some (-1)%Z)
                      (pages_of [([rec_ 1; rec_ 2; rec_ 3], Some "c1"%string);
                                 ([rec_ 4], None)])),
          Ok [rec_ 1; rec_ 2])
  /\ exists rest,
      List.concat (map fst [([rec_ 1; rec_ 2; rec_ 3], Some "c1"%string);
                            ([rec_ 4], @None string)])
      = [rec_ 1; rec_ 2] ++ rest.
Proof.
  split; [reflexivity|].
  apply (download_returns_prefix sample_downloader (Some (-1)%Z)
           [([rec_ 1; rec_ 2; rec_ 3], Some "c1"%string); ([rec_ 4], None)]
           (trace_of (download_all_logs sample_downloader (Some (-1)%Z)
                        (pages_of [([rec_ 1; rec_ 2; rec_ 3], Some "c1"%string);
                                   ([rec_ 4], None)])))).
  reflexivity.
Defined.


Lemma every_request_is_a_page_request_witness :
  download_all_logs sample_downloader None three_pages_then_empty
  = Some (trace_of (download_all_logs sample_downloader None three_pages_then_empty),
          Ok [rec_ 1; rec_ 2; rec_ 3; rec_ 4; rec_ 5; rec_ 6])
  /\ Forall (page_request_shape sample_downloader)
            (trace_of (download_all_logs sample_downloader None
                         three_pages_then_empty))
  /\ forall lib key profile,
      session_headers (__init__ lib key profile)
      = [("User-Agent"%string, VStr (user_agent lib));
         ("Accept-Encoding"%string, VStr (accept_encoding lib));
         ("Accept"%string, VStr "*/*");
         ("Connection"%string, VStr "keep-alive");
         ("X-Api-Key"%string, VStr key)].
Proof.
  split; [reflexivity|].
  apply (every_request_is_a_page_request sample_downloader None
           three_pages_then_empty _
           (Ok [rec_ 1; rec_ 2; rec_ 3; rec_ 4; rec_ 5; rec_ 6])).
  reflexivity.
Defined.

Lemma negative_cap_cuts_first_page_witness :
  (-1 < 0)%Z
  /\ exists tr,
      download_all_logs sample_downloader (Some (-1)%Z)
        (Returns (page [rec_ 1; rec_ 2; rec_ 3] (Some "c1"%string)) :: [])
      = Some (tr, Ok (firstn (Z.to_nat (len [rec_ 1; rec_ 2; rec_ 3] + -1))
                             [rec_ 1; rec_ 2; rec_ 3]))
      /\ fetches tr = 1%nat.
Proof.
  split; [lia|].
  apply (negative_cap_cuts_first_page sample_downloader (-1)%Z
           [rec_ 1; rec_ 2; rec_ 3] (Some "c1"%string) []).
  lia.
Defined.

Lemma response_without_data_ends_loop_witness :
  truthy (get [("errors"%string, VList [VStr "forbidden"])] "data" (VList [])) = false
  /\ download_loop sample_downloader None
       (Returns (VDict [("errors"%string, VList [VStr "forbidden"])]) :: [])
       [rec_ 1] (VStr "c1") 2
     = Some ([Print ("Fetching page " ++ str_of_int 2 ++ "...")%string " ";
              page_request sample_downloader (VStr "c1");
              print "No more logs."],
             Ok [rec_ 1]).
Proof.
  split; [reflexivity|].
  apply (response_without_data_ends_loop sample_downloader None
           [("errors"%string, VList [VStr "forbidden"])] [] [rec_ 1] (VStr "c1") 2%Z).
  reflexivity.
Defined.

Lemma response_without_meta_ends_loop_witness :
  lookup [("data"%string, VList [rec_ 1; rec_ 2])] "data" = Some (VList [rec_ 1; rec_ 2])
  /\ lookup [("data"%string, VList [rec_ 1; rec_ 2])] "meta" = None
  /\ cap_reached (Some 5%Z) ([rec_ 0] ++ [rec_ 1; rec_ 2]) = false
  /\ returned (download_loop sample_downloader (Some 5%Z)
                 (Returns (VDict [("data"%string, VList [rec_ 1; rec_ 2])]) :: [])
                 [rec_ 0] VNone 1)
     = Some ([rec_ 0] ++ [rec_ 1; rec_ 2]).
Proof.
  split; [reflexivity|]. split; [reflexivity|]. split; [reflexivity|].
  apply (response_without_meta_ends_loop sample_downloader (Some 5%Z)
           [("data"%string, VList [rec_ 1; rec_ 2])] (rec_ 1) [rec_ 2] []
           [rec_ 0] VNone 1%Z); reflexivity.
Defined.

Lemma meta_must_be_an_object_witness :
  lookup [("data"%string, VList [rec_ 1]); ("meta"%string, VNone)] "data"
  = Some (VList [rec_ 1])
  /\ lookup [("data"%string, VList [rec_ 1]); ("meta"%string, VNone)] "meta"
     = Some VNone
  /\ (forall m, VNone <> VDict m)
  /\ cap_reached None ([] ++ [rec_ 1]) = false
  /\ exists tr,
      download_loop sample_downloader None
        (Returns (VDict [("data"%string, VList [rec_ 1]); ("meta"%string, VNone)])
           :: []) [] VNone 1
      = Some (tr, Raised (AttributeError
                            ("'" ++ type_name VNone
                                 ++ "' object has no attribute 'get'")%string)).
Proof.
  split; [reflexivity|]. split; [reflexivity|].
  split; [intros m; discriminate|]. split; [reflexivity|].
  apply (meta_must_be_an_object sample_downloader None
           [("data"%string, VList [rec_ 1]); ("meta"%string, VNone)]
           (rec_ 1) [] VNone [] [] VNone 1%Z);
    try reflexivity.
  intros m. discriminate.
Defined.

Lemma download_all_logs_positive_cap_witness :
  (1 <= 3)%Z
  /\ well_formed [([rec_ 1; rec_ 2], "c1"%string); ([rec_ 3; rec_ 4], "c2"%string)]
  /\ returned (download_all_logs sample_downloader (Some 3%Z)
                 (simulated [([rec_ 1; rec_ 2], "c1"%string);
                             ([rec_ 3; rec_ 4], "c2"%string)] [rec_ 5] ++ []))
     = Some (firstn (Z.to_nat 3)
               (records [([rec_ 1; rec_ 2], "c1"%string);
                         ([rec_ 3; rec_ 4], "c2"%string)] [rec_ 5]))
  /\ len (firstn (Z.to_nat 3)
            (records [([rec_ 1; rec_ 2], "c1"%string);
                      ([rec_ 3; rec_ 4], "c2"%string)] [rec_ 5]))
     = Z.min 3 (len (records [([rec_ 1; rec_ 2], "c1"%string);
                              ([rec_ 3; rec_ 4], "c2"%string)] [rec_ 5])).
Proof.
  assert (Hwf : well_formed [([rec_ 1; rec_ 2], "c1"%string);
                             ([rec_ 3; rec_ 4], "c2"%string)])
    by (repeat constructor; discriminate).
  split; [lia|]. split; [exact Hwf|].
  apply (download_all_logs_positive_cap sample_downloader 3%Z _ [rec_ 5] []);
    [lia|exact Hwf].
Defined.

Lemma download_all_logs_no_cap_witness :
  well_formed [([rec_ 1; rec_ 2], "c1"%string); ([rec_ 3; rec_ 4], "c2"%string)]
  /\ exists tr,
      download_all_logs sample_downloader None
        (simulated [([rec_ 1; rec_ 2], "c1"%string);
                    ([rec_ 3; rec_ 4], "c2"%string)] [rec_ 5] ++ [])
      = Some (tr, Ok (records [([rec_ 1; rec_ 2], "c1"%string);
                               ([rec_ 3; rec_ 4], "c2"%string)] [rec_ 5]))
      /\ pacing_delays tr
         = List.length [([rec_ 1; rec_ 2], "c1"%string);
                        ([rec_ 3; rec_ 4], "c2"%string)]
      /\ fetches tr
         = S (List.length [([rec_ 1; rec_ 2], "c1"%string);
                           ([rec_ 3; rec_ 4], "c2"%string)]).
Proof.
  assert (Hwf : well_formed [([rec_ 1; rec_ 2], "c1"%string);
                             ([rec_ 3; rec_ 4], "c2"%string)])
    by (repeat constructor; discriminate).
  split; [exact Hwf|].
  exact (download_all_logs_no_cap sample_downloader _ [rec_ 5] [] Hwf).
Defined.

Lemma flattened_values_are_scalars_witness :
  In ("a_b"%string, VInt 1)
     (_flatten_dict [("a"%string, VDict [("b"%string, VInt 1)]);
                     ("c"%string, VList [VInt 1; VInt 2])] "" "_")
  /\ is_scalar (VInt 1) = true.
Proof.
  split; [left; reflexivity|].
  apply (flattened_values_are_scalars
           [("a"%string, VDict [("b"%string, VInt 1)]);
            ("c"%string, VList [VInt 1; VInt 2])] "" "_" "a_b" (VInt 1)).
  left. reflexivity.
Defined.

Lemma flatten_keeps_flat_record_witness :
  Forall (fun kv => is_scalar (snd kv) = true)
         [("status"%string, VStr "blocked"); ("encrypted"%string, VBool true)]
  /\ NoDup (keys [("status"%string, VStr "blocked"); ("encrypted"%string, VBool true)])
  /\ _flatten_dict [("status"%string, VStr "blocked"); ("encrypted"%string, VBool true)]
                   "" "_"
     = [("status"%string, VStr "blocked"); ("encrypted"%string, VBool true)].
Proof.
  assert (Hflat : Forall (fun kv => is_scalar (snd kv) = true)
                    [("status"%string, VStr "blocked");
                     ("encrypted"%string, VBool true)])
    by (repeat constructor).
  assert (Hnd : NoDup (keys [("status"%string, VStr "blocked");
                             ("encrypted"%string, VBool true)])).
  { repeat constructor; cbn; intuition discriminate. }
  split; [exact Hflat|]. split; [exact Hnd|].
  exact (flatten_keeps_flat_record _ "_" Hflat Hnd).
Defined.

Lemma flatten_dict_refines_spec_witness :
  (forall k d',
      In (k, VDict d') [("device"%string, VDict [("name"%string, VStr "phone")]);
                        ("reasons"%string, VList [])] ->
      k <> ""%string)
  /\ _flatten_dict [("device"%string, VDict [("name"%string, VStr "phone")]);
                    ("reasons"%string, VList [])] "" "_"
     = flatten_spec (VDict [("device"%string, VDict [("name"%string, VStr "phone")]);
                            ("reasons"%string, VList [])]) None "_".
Proof.
  assert (Hkeys : forall k d',
             In (k, VDict d') [("device"%string, VDict [("name"%string, VStr "phone")]);
                               ("reasons"%string, VList [])] ->
             k <> ""%string).
  { intros k d' [H|[H|[]]]; inversion H; subst; discriminate. }
  split; [exact Hkeys|].
  exact (flatten_dict_refines_spec _ "_" Hkeys).
Defined.



Lemma csv_file_is_a_table_of_scalars_witness :
  map VDict [flat_record; nested_record] <> []
  /\ save_to_csv (map VDict [flat_record; nested_record]) "out.csv" Accepts
     = ([Open "out.csv";
         WriteRow "out.csv" [VStr "a_b"; VStr "id"];
         WriteRow "out.csv" [VStr ""; VInt 1];
         WriteRow "out.csv" [VInt 2; VStr ""];
         print "Saved 2 logs to out.csv"],
        Ok tt)
  /\ Accepts = Accepts
  /\ exists header rows,
      [Open "out.csv";
       WriteRow "out.csv" [VStr "a_b"; VStr "id"];
       WriteRow "out.csv" [VStr ""; VInt 1];
       WriteRow "out.csv" [VInt 2; VStr ""];
       print "Saved 2 logs to out.csv"]
      = Open "out.csv"
          :: WriteRow "out.csv" (map VStr header)
          :: map (WriteRow "out.csv") rows
          ++ [print ("Saved "
                       ++ str_of_int (len (map VDict [flat_record; nested_record]))
                       ++ " logs to " ++ "out.csv")%string]
      /\ List.length rows = List.length (map VDict [flat_record; nested_record])
      /\ Forall (fun row => List.length row = List.length header) rows
      /\ Forall (Forall (fun cell => is_scalar cell = true)) rows.
Proof.
  split; [discriminate|]. split; [reflexivity|].
  apply (csv_file_is_a_table_of_scalars "out.csv"
           (map VDict [flat_record; nested_record]) Accepts);
    [discriminate|reflexivity].
Defined.

Lemma failed_first_request_exits_0_witness :
  given (args_api_key (namespace_of [] both_only_flags)) = true
  /\ given (args_profile (namespace_of [] both_only_flags)) = true
  /\ exists tr,
      main sample_library [] (Options both_only_flags)
           (Raises (RequestException HTTPError "403 Forbidden") :: []) accepting
      = Some (tr, 0%Z)
      /\ files_written tr = []
      /\ fetches tr = 1%nat
      /\ In (print ("Error fetching logs: " ++ "403 Forbidden")%string) tr
      /\ In (print "No logs downloaded.") tr.
Proof.
  split; [reflexivity|]. split; [reflexivity|].
  apply (failed_first_request_exits_0 sample_library [] both_only_flags HTTPError
           "403 Forbidden" [] accepting);
    reflexivity.
Defined.

Lemma exit_status_of_main_witness :
  main sample_library [] (Options no_api_key) [] accepting
  = Some ([Usage "--api-key is required (or set NEXTDNS_API_KEY environment variable)"],
          2%Z)
  /\ if given (args_api_key (namespace_of [] no_api_key))
        && given (args_profile (namespace_of [] no_api_key))
     then 2%Z = 0%Z \/ 2%Z = 1%Z
     else 2%Z = 2%Z
          /\ fetches [Usage "--api-key is required (or set NEXTDNS_API_KEY environment variable)"]
             = 0%nat
          /\ files_written
               [Usage "--api-key is required (or set NEXTDNS_API_KEY environment variable)"]
             = [].
Proof.
  split; [reflexivity|].
  apply (exit_status_of_main sample_library [] (Options no_api_key) [] accepting
           [Usage "--api-key is required (or set NEXTDNS_API_KEY environment variable)"]
           2%Z).
  reflexivity.
Defined.

Lemma failed_download_writes_nothing_witness :
  given (args_api_key (namespace_of [] both_credentials)) = true
  /\ given (args_profile (namespace_of [] both_credentials)) = true
  /\ download_all_logs (downloader_of sample_library (namespace_of [] both_credentials))
       (args_max_logs (namespace_of [] both_credentials))
       [Returns (page [rec_ 1] (Some "c1"%string)); Raises KeyboardInterrupt]
     = Some (trace_of
               (download_all_logs
                  (downloader_of sample_library (namespace_of [] both_credentials))
                  (args_max_logs (namespace_of [] both_credentials))
                  [Returns (page [rec_ 1] (Some "c1"%string));
                   Raises KeyboardInterrupt]),
             Raised KeyboardInterrupt)
  /\ exists tr,
      main sample_library [] (Options both_credentials)
        [Returns (page [rec_ 1] (Some "c1"%string)); Raises KeyboardInterrupt]
        accepting
      = Some (tr, 1%Z)
      /\ files_written tr = []
      /\ fetches tr
         = fetches (trace_of
                      (download_all_logs
                         (downloader_of sample_library
                                        (namespace_of [] both_credentials))
                         (args_max_logs (namespace_of [] both_credentials))
                         [Returns (page [rec_ 1] (Some "c1"%string));
                          Raises KeyboardInterrupt])).
Proof.
  split; [reflexivity|]. split; [reflexivity|]. split; [reflexivity|].
  apply (failed_download_writes_nothing sample_library [] both_credentials
           [Returns (page [rec_ 1] (Some "c1"%string)); Raises KeyboardInterrupt]
           accepting _ KeyboardInterrupt); reflexivity.
Defined.

Lemma successful_run_writes_the_flagged_files_witness :
  main sample_library key_in_environ (Options profile_and_prefix)
       [Returns (page [rec_ 1] None)] accepting
  = Some (trace_of
            (main sample_library key_in_environ (Options profile_and_prefix)
               [Returns (page [rec_ 1] None)] accepting),
          0%Z)
  /\ returned (download_all_logs
                 (downloader_of sample_library
                                (namespace_of key_in_environ profile_and_prefix))
                 (args_max_logs (namespace_of key_in_environ profile_and_prefix))
                 [Returns (page [rec_ 1] None)])
     = Some [rec_ 1]
  /\ [rec_ 1] <> []
  /\ files_written
       (trace_of
          (main sample_library key_in_environ (Options profile_and_prefix)
             [Returns (page [rec_ 1] None)] accepting))
     = ["logs.json"; "logs.csv"]%string.
Proof.
  split; [reflexivity|]. split; [reflexivity|]. split; [discriminate|].
  apply (successful_run_writes_the_flagged_files sample_library key_in_environ
           profile_and_prefix [Returns (page [rec_ 1] None)] accepting _ [rec_ 1]);
    [reflexivity|reflexivity|discriminate].
Defined.


Lemma main_requests_use_the_credentials_witness :
  main sample_library both_in_environ (Options key_by_flag)
       [Returns (page [rec_ 1] None)] accepting
  = Some (trace_of
            (main sample_library both_in_environ (Options key_by_flag)
               [Returns (page [rec_ 1] None)] accepting),
          0%Z)
  /\ or_else (opt_api_key key_by_flag)
             (environ_get both_in_environ "NEXTDNS_API_KEY")
     = Some "from-flag"%string
  /\ or_else (opt_profile key_by_flag)
             (environ_get both_in_environ "NEXTDNS_PROFILE_ID")
     = Some "abc123"%string
  /\ Forall (page_request_shape (__init__ sample_library "from-flag" "abc123"))
            (trace_of
               (main sample_library both_in_environ (Options key_by_flag)
                  [Returns (page [rec_ 1] None)] accepting))
  /\ profile_id (__init__ sample_library "from-flag" "abc123") = "abc123"%string
  /\ session_headers (__init__ sample_library "from-flag" "abc123")
     = default_headers sample_library ++ [("X-Api-Key"%string, VStr "from-flag")].
Proof.
  split; [reflexivity|]. split; [reflexivity|]. split; [reflexivity|].
  apply (main_requests_use_the_credentials sample_library both_in_environ
           key_by_flag [Returns (page [rec_ 1] None)] accepting _ 0%Z
           "from-flag" "abc123");
    reflexivity.
Defined.

Lemma refused_file_exits_1_witness :
  given (args_api_key (namespace_of [] both_credentials)) = true
  /\ given (args_profile (namespace_of [] both_credentials)) = true
  /\ returned (download_all_logs
                 (downloader_of sample_library (namespace_of [] both_credentials))
                 (args_max_logs (namespace_of [] both_credentials))
                 [Returns (page [rec_ 1] None)])
     = Some [rec_ 1]
  /\ [rec_ 1] <> []
  /\ In "nextdns_logs.csv"%string
        (exported_files (namespace_of [] both_credentials))
  /\ full_after_header "nextdns_logs.csv" <> Accepts
  /\ exists tr,
      main sample_library [] (Options both_credentials)
           [Returns (page [rec_ 1] None)] full_after_header
      = Some (tr, 1%Z).
Proof.
  split; [reflexivity|]. split; [reflexivity|]. split; [reflexivity|].
  split; [discriminate|]. split; [right; left; reflexivity|].
  split; [discriminate|].
  apply (refused_file_exits_1 sample_library [] both_credentials
           [Returns (page [rec_ 1] None)] full_after_header
           [rec_ 1] "nextdns_logs.csv");
    [reflexivity|reflexivity|reflexivity|discriminate
    |right; left; reflexivity|discriminate].
Defined.

Lemma flattened_keys_collide_witness :
  "a"%string <> ""%string
  /\ is_scalar (VInt 1) = true
  /\ is_scalar (VStr "x") = true
  /\ _flatten_dict [("a"%string, VDict [("b"%string, VInt 1)]);
                    (("a" ++ "_" ++ "b")%string, VStr "x")] "" "_"
     = [(("a" ++ "_" ++ "b")%string, VStr "x")]
  /\ _flatten_dict [(("a" ++ "_" ++ "b")%string, VStr "x");
                    ("a"%string, VDict [("b"%string, VInt 1)])] "" "_"
     = [(("a" ++ "_" ++ "b")%string, VInt 1)]
  /\ (forall (d : dict) (parent_key : string),
         NoDup (keys (_flatten_dict d parent_key "_"))).
Proof.
  split; [discriminate|]. split; [reflexivity|]. split; [reflexivity|].
  apply (flattened_keys_collide "a" "b" "_" (VInt 1) (VStr "x"));
    [discriminate|reflexivity|reflexivity].
Defined.
